(** * fizz/protocol/Certificate.cpp: certificate utilities of a TLS 1.3 engine

    A shallow embedding of [CertUtils] (signing context, Certificate message,
    peer and self certificate factories) and the properties checked on it.

    Conventions of the embedding:
    - bytes are [Byte.byte], byte ranges and [std::string]s are [list byte];
    - [size_t] values are [Z] reduced modulo [2^64], [int] values are [Z];
    - a C++ call has an [outcome]: it returns, it throws [std::runtime_error],
      or its behaviour is undefined (null dereference, access outside a
      buffer, [front()] of an empty vector);
    - OpenSSL and folly are collaborators: their handles and entry points are
      the fields of the class [OpenSSL], and nothing is assumed about them
      beyond what a theorem states as a hypothesis;
    - memory allocation is taken to succeed ([std::bad_alloc] is not modelled). *)

From Stdlib Require Import ZArith Lia.
From Stdlib Require Import Strings.Byte.
From stdpp Require Import base tactics option numbers list strings.

Local Open Scope Z_scope.

(** ** Outcomes of a call *)

Inductive exn : Type :=
| runtime_error (what : string).

Inductive outcome (A : Type) : Type :=
| Ret (a : A)
| Throw (e : exn)
| Undefined.
Arguments Ret {A} a.
Arguments Throw {A} e.
Arguments Undefined {A}.

#[global] Instance outcome_ret : MRet outcome := fun A a => Ret a.
#[global] Instance outcome_bind : MBind outcome := fun A B k m =>
  match m with
  | Ret a => k a
  | Throw e => Throw e
  | Undefined => Undefined
  end.

Definition returns {A} (o : outcome A) : Prop := ∃ a, o = Ret a.
Definition throws {A} (o : outcome A) : Prop := ∃ e, o = Throw e.

(** ** Machine integers *)

Definition SIZE_MAX : Z := 2 ^ 64 - 1.
Definition PTRDIFF_MAX : Z := 2 ^ 63 - 1.

(** [size_t] addition wraps around. *)
Definition size_add (a b : Z) : Z := (a + b) mod 2 ^ 64.
Infix "+sz" := size_add (at level 50, left associativity).

(** Conversion of a [size_t] to [int] (two's complement truncation). *)
Definition int_of_size (n : Z) : Z :=
  let w := n mod 2 ^ 32 in
  if decide (w < 2 ^ 31) then w else w - 2 ^ 32.

(** ** folly: byte ranges and IOBuf *)

Abbreviation ByteRange := (list byte) (only parsing).
Abbreviation StringPiece := string (only parsing).

Definition ByteRange_size (r : ByteRange) : Z := Z.of_nat (length r).
Definition StringPiece_data (s : StringPiece) : list byte := String.list_byte_of_string s.
Definition StringPiece_size (s : StringPiece) : Z := Z.of_nat (String.length s).

(** A byte range designates an object in memory; no object is larger than
    [PTRDIFF_MAX] bytes. *)
Definition ByteRange_valid (r : ByteRange) : Prop := ByteRange_size r ≤ PTRDIFF_MAX.

(** One element of an IOBuf chain: [seg_mem] is the memory from [data()] to
    the end of the allocation (so its length is [length() + tailroom()]),
    [seg_len] is [length()]. *)
Record segment : Type := mkSegment {
  seg_mem : list byte;
  seg_len : nat
}.

Definition seg_bytes (s : segment) : list byte := take (seg_len s) (seg_mem s).

(** An IOBuf is the head of a chain of segments. *)
Record IOBuf : Type := mkIOBuf {
  buf_head : segment;
  buf_next : list segment
}.

(** [std::unique_ptr<folly::IOBuf>]: [None] is the null pointer. *)
Abbreviation Buf := (option IOBuf) (only parsing).

Definition IOBuf_segments (b : IOBuf) : list segment := buf_head b :: buf_next b.

(** [IOBuf::empty()]: every element of the chain has length zero. *)
Definition IOBuf_empty (b : IOBuf) : bool :=
  forallb (fun s => Nat.eqb (seg_len s) 0) (IOBuf_segments b).

(** [IOBuf::coalesce()]: the contents of the whole chain as one range. *)
Definition IOBuf_coalesce (b : IOBuf) : ByteRange :=
  concat (map seg_bytes (IOBuf_segments b)).

(** An unchained IOBuf holding exactly the given bytes. *)
Definition IOBuf_of_bytes (l : list byte) : IOBuf :=
  mkIOBuf (mkSegment l (length l)) [].

Section Memory.

(** Contents of freshly allocated memory: byte [i] of a new allocation is
    [fresh i]. No result may depend on it. *)
Variable fresh : nat → byte.

Definition uninitialized (n : nat) : list byte := map fresh (seq 0 n).

(** [IOBuf::create(capacity)]: an empty unchained buffer with [capacity]
    bytes of tailroom. *)
Definition IOBuf_create (capacity : Z) : IOBuf :=
  mkIOBuf (mkSegment (uninitialized (Z.to_nat capacity)) 0) [].

(** [IOBuf::append(amount)] on the head: the length grows into the tailroom. *)
Definition IOBuf_append (amount : Z) (b : IOBuf) : outcome IOBuf :=
  let s := buf_head b in
  if decide (Z.of_nat (seg_len s) + amount ≤ Z.of_nat (length (seg_mem s))) then
    Ret (mkIOBuf (mkSegment (seg_mem s) (seg_len s + Z.to_nat amount)) (buf_next b))
  else Undefined.

(** [memset(b->writableData() + offset, c, n)]. *)
Definition memset (b : IOBuf) (offset : Z) (c : byte) (n : Z) : outcome IOBuf :=
  let s := buf_head b in
  if decide (offset + n ≤ Z.of_nat (length (seg_mem s))) then
    Ret (mkIOBuf
           (mkSegment
              (list_inserts (Z.to_nat offset) (replicate (Z.to_nat n) c) (seg_mem s))
              (seg_len s))
           (buf_next b))
  else Undefined.

(** [memcpy(b->writableData() + offset, src, n)]. *)
Definition memcpy (b : IOBuf) (offset : Z) (src : list byte) (n : Z) : outcome IOBuf :=
  let s := buf_head b in
  if decide (n ≤ Z.of_nat (length src) ∧ offset + n ≤ Z.of_nat (length (seg_mem s))) then
    Ret (mkIOBuf
           (mkSegment
              (list_inserts (Z.to_nat offset) (take (Z.to_nat n) src) (seg_mem s))
              (seg_len s))
           (buf_next b))
  else Undefined.

End Memory.

(** ** Protocol types *)

(** Modelled from the spec: the enumerations and message structures are
    declared in headers (fizz/protocol/Certificate.h, fizz/record/Types.h) that
    are not among the sources; the spec's data model gives their shape. *)
Inductive KeyType : Type := RSA | P256 | P384 | P521.

Inductive CertificateVerifyContext : Type := Server | Client.

#[global] Instance KeyType_eq_dec : EqDecision KeyType.
Proof. solve_decision. Defined.
#[global] Instance CertificateVerifyContext_eq_dec : EqDecision CertificateVerifyContext.
Proof. solve_decision. Defined.

Record Extension : Type := mkExtension {
  extension_type : Z;
  extension_data : Buf
}.

Record CertificateEntry : Type := mkCertificateEntry {
  cert_data : Buf;
  extensions : list Extension
}.

Record CertificateMsg : Type := mkCertificateMsg {
  certificate_request_context : Buf;
  certificate_list : list CertificateEntry
}.

(** ** OpenSSL and folly::ssl *)

(** The collaborator library. Handles are abstract; a handle stored in a
    vector or returned as [Some] is never null.
    - [i2d_X509_len x] is the value of [i2d_X509(x, nullptr)];
    - [i2d_X509_out x] is the value of [i2d_X509(x, &p)] together with the
      bytes it stores at [p];
    - [d2i_X509 data] is [d2i_X509(nullptr, &begin, size)] on the range [data]:
      [None] for a null result, otherwise the certificate and the number of
      bytes by which [begin] advanced;
    - [BIO_new_mem_buf data len], [PEM_read_bio_PrivateKey bio] and
      [X509_get_pubkey x] are [None] for a null result;
    - [readCertsFromBuffer] is [folly::ssl::OpenSSLCertUtils::readCertsFromBuffer],
      which may itself throw. *)
Class OpenSSL : Type := {
  X509 : Type;
  EVP_PKEY : Type;
  EC_KEY : Type;
  EC_GROUP : Type;
  BIO : Type;
  i2d_X509_len : X509 → Z;
  i2d_X509_out : X509 → Z * list byte;
  d2i_X509 : ByteRange → option (X509 * nat);
  X509_get_pubkey : X509 → option EVP_PKEY;
  EVP_PKEY_id : EVP_PKEY → Z;
  EVP_PKEY_get0_EC_KEY : EVP_PKEY → option EC_KEY;
  EC_KEY_get0_group : EC_KEY → EC_GROUP;
  EC_GROUP_get_curve_name : EC_GROUP → Z;
  BIO_new_mem_buf : list byte → Z → option BIO;
  PEM_read_bio_PrivateKey : BIO → option EVP_PKEY;
  readCertsFromBuffer : list byte → outcome (list X509)
}.

(** Numeric identifiers of OpenSSL's obj_mac.h and evp.h. *)
Definition NID_undef : Z := 0.
Definition EVP_PKEY_RSA : Z := 6.
Definition EVP_PKEY_EC : Z := 408.
Definition NID_X9_62_prime256v1 : Z := 415.
Definition NID_secp384r1 : Z := 715.
Definition NID_secp521r1 : Z := 716.

(** Modelled from the spec: [PeerCertImpl<T>] and [SelfCertImpl<T>] are class
    templates of fizz/protocol/Certificate.h and Certificate-inl.h, not among
    the sources. Per the spec a peer certificate variant owns the parsed
    certificate, a self certificate variant owns the private key and the
    whole chain, and building a variant has no failure of its own. *)
Inductive PeerCert `{ssl : OpenSSL} : Type :=
| PeerCertImpl (T : KeyType) (cert : X509).

Inductive SelfCert `{ssl : OpenSSL} : Type :=
| SelfCertImpl (T : KeyType) (key : EVP_PKEY) (certs : list X509).

Definition PeerCert_type `{ssl : OpenSSL} (p : PeerCert) : KeyType :=
  match p with PeerCertImpl T _ => T end.

Definition SelfCert_type `{ssl : OpenSSL} (s : SelfCert) : KeyType :=
  match s with SelfCertImpl T _ _ => T end.

Definition getCurveName `{ssl : OpenSSL} (key : EVP_PKEY) : Z :=
  match EVP_PKEY_get0_EC_KEY key with
  | Some ecKey => EC_GROUP_get_curve_name (EC_KEY_get0_group ecKey)
  | None => 0
  end.

Module CertUtils.

Definition kServerLabel : StringPiece := "TLS 1.3, server CertificateVerify".
Definition kClientLabel : StringPiece := "TLS 1.3, client CertificateVerify".
Definition kSigPrefixLen : Z := 64.
Definition kSigPrefix : byte := x20.

Section Functions.

Context `{ssl : OpenSSL}.
Variable fresh : nat → byte.

Definition prepareSignData
    (context : CertificateVerifyContext) (toBeSigned : ByteRange) : outcome Buf :=
  let label := if decide (context = Server) then kServerLabel else kClientLabel in
  let sigDataLen :=
    kSigPrefixLen +sz StringPiece_size label +sz 1 +sz ByteRange_size toBeSigned in
  let buf := IOBuf_create fresh sigDataLen in
  buf ← IOBuf_append sigDataLen buf;
  let offset := 0 in
  buf ← memset buf 0 kSigPrefix kSigPrefixLen;
  let offset := offset +sz kSigPrefixLen in
  buf ← memcpy buf offset (StringPiece_data label) (StringPiece_size label);
  let offset := offset +sz StringPiece_size label in
  buf ← memset buf offset x00 1;
  let offset := offset +sz 1 in
  buf ← memcpy buf offset toBeSigned (ByteRange_size toBeSigned);
  mret (Some buf).

(** The [for] loop of [getCertMessage]: [entries] is the vector built so far.
    The second call of the encoder stores its bytes through [dataPtr], at the
    start of the buffer just created, before its return value is tested. *)
Fixpoint getCertMessage_loop
    (certs : list X509) (entries : list CertificateEntry)
    : outcome (list CertificateEntry) :=
  match certs with
  | [] => mret entries
  | cert :: certs' =>
      let len := i2d_X509_len cert in
      if decide (len < 0) then Throw (runtime_error "Error computing length") else
      let entry_cert_data := IOBuf_create fresh len in
      let '(len, stored) := i2d_X509_out cert in
      entry_cert_data ← memcpy entry_cert_data 0 stored (ByteRange_size stored);
      if decide (len < 0) then Throw (runtime_error "Error converting cert to DER") else
      entry_cert_data ← IOBuf_append len entry_cert_data;
      let entry := mkCertificateEntry (Some entry_cert_data) [] in
      getCertMessage_loop certs' (entries ++ [entry])
  end.

Definition getCertMessage
    (certs : list X509) (certificateRequestContext : Buf) : outcome CertificateMsg :=
  entries ← getCertMessage_loop certs [];
  mret (mkCertificateMsg certificateRequestContext entries).

(** [makePeerCert] also yields the lines it writes with [VLOG(1)]. *)
Definition makePeerCert (certData : Buf) : list string * outcome PeerCert :=
  match certData with
  | None => ([], Undefined)
  | Some certData =>
      if IOBuf_empty certData then ([], Throw (runtime_error "empty peer cert")) else
      let range := IOBuf_coalesce certData in
      match d2i_X509 range with
      | None => ([], Throw (runtime_error "could not read cert"))
      | Some (cert, consumed) =>
          let vlog :=
            if decide (consumed ≠ length range)
            then ["Did not read to end of certificate"%string] else [] in
          match X509_get_pubkey cert with
          | None => (vlog, Throw (runtime_error "couldn't get pubkey from peer cert"))
          | Some pubKey =>
              if decide (EVP_PKEY_id pubKey = EVP_PKEY_RSA) then
                (vlog, Ret (PeerCertImpl RSA cert))
              else if decide (EVP_PKEY_id pubKey = EVP_PKEY_EC) then
                let curve := getCurveName pubKey in
                if decide (curve = NID_X9_62_prime256v1) then
                  (vlog, Ret (PeerCertImpl P256 cert))
                else if decide (curve = NID_secp384r1) then
                  (vlog, Ret (PeerCertImpl P384 cert))
                else if decide (curve = NID_secp521r1) then
                  (vlog, Ret (PeerCertImpl P521 cert))
                else (vlog, Throw (runtime_error "unknown peer cert type"))
              else (vlog, Throw (runtime_error "unknown peer cert type"))
          end
      end
  end.

(** [std::vector::front()]: undefined on an empty vector. *)
Definition front {A} (v : list A) : outcome A :=
  match v with
  | [] => Undefined
  | x :: _ => Ret x
  end.

(** [makeSelfCert(std::vector<X509UniquePtr>, EvpPkeyUniquePtr)]. *)
Definition makeSelfCert (certs : list X509) (key : EVP_PKEY) : outcome SelfCert :=
  leaf ← front certs;
  match X509_get_pubkey leaf with
  | None => Throw (runtime_error "Failed to read public key")
  | Some pubKey =>
      if decide (EVP_PKEY_id pubKey = EVP_PKEY_RSA) then
        Ret (SelfCertImpl RSA key certs)
      else if decide (EVP_PKEY_id pubKey = EVP_PKEY_EC) then
        let curve := getCurveName pubKey in
        if decide (curve = NID_X9_62_prime256v1) then
          Ret (SelfCertImpl P256 key certs)
        else if decide (curve = NID_secp384r1) then
          Ret (SelfCertImpl P384 key certs)
        else if decide (curve = NID_secp521r1) then
          Ret (SelfCertImpl P521 key certs)
        else Throw (runtime_error "unknown self cert type")
      else Throw (runtime_error "unknown self cert type")
  end.

(** [makeSelfCert(std::string certData, std::string keyData)]. *)
Definition makeSelfCert_data (certData keyData : list byte) : outcome SelfCert :=
  certs ← readCertsFromBuffer certData;
  if decide (certs = []) then Throw (runtime_error "no certificates read") else
  match BIO_new_mem_buf keyData (int_of_size (ByteRange_size keyData)) with
  | None => Throw (runtime_error "failed to create BIO")
  | Some b =>
      match PEM_read_bio_PrivateKey b with
      | None => Throw (runtime_error "Failed to read key")
      | Some key => makeSelfCert certs key
      end
  end.

End Functions.

End CertUtils.

(** ** Vocabulary of the properties *)

(** The label of each side, as bytes. *)
Definition label_bytes (context : CertificateVerifyContext) : list byte :=
  match context with
  | Server => String.list_byte_of_string "TLS 1.3, server CertificateVerify"
  | Client => String.list_byte_of_string "TLS 1.3, client CertificateVerify"
  end.

Section Vocabulary.

Context `{ssl : OpenSSL}.

(** The bytes the encoder stores for a certificate. *)
Definition der (cert : X509) : list byte := (i2d_X509_out cert).2.

(** A certificate DER-encodes successfully: both calls of the encoder report
    the number of bytes it stores (in particular a non-negative length). *)
Definition encodes (cert : X509) : Prop :=
  i2d_X509_len cert = ByteRange_size (der cert) ∧
  (i2d_X509_out cert).1 = ByteRange_size (der cert).

(** Encoding a certificate fails: a negative length at either step. *)
Definition encode_fails (cert : X509) : Prop :=
  i2d_X509_len cert < 0 ∨ (i2d_X509_out cert).1 < 0.

(** The encoder stays within the length it announced at the first step. *)
Definition i2d_in_bounds (cert : X509) : Prop :=
  0 ≤ i2d_X509_len cert →
  ByteRange_size (der cert) ≤ i2d_X509_len cert ∧
  (i2d_X509_out cert).1 ≤ i2d_X509_len cert.

#[local] Instance encode_fails_dec cert : Decision (encode_fails cert).
Proof. unfold encode_fails. apply _. Defined.

Definition entry_of (cert : X509) : CertificateEntry :=
  mkCertificateEntry (Some (IOBuf_of_bytes (der cert))) [].

(** The key is of one of the three recognized curves. *)
Definition recognized_curve (key : EVP_PKEY) : Prop :=
  EVP_PKEY_id key = EVP_PKEY_EC ∧
  (getCurveName key = NID_X9_62_prime256v1 ∨
   getCurveName key = NID_secp384r1 ∨
   getCurveName key = NID_secp521r1).

End Vocabulary.

(** ** Identity certificates *)

(** [IdentityCert]: an identity with no X.509 certificate behind it. *)
Record IdentityCert : Type := mkIdentityCert {
  identity_ : string
}.

Definition IdentityCert_new (identity : string) : IdentityCert :=
  mkIdentityCert identity.

Definition getIdentity (c : IdentityCert) : string := identity_ c.

(** [IdentityCert::getX509()] returns the null pointer. *)
Definition getX509 `{ssl : OpenSSL} (c : IdentityCert) : option X509 := None.

(** ** Further vocabulary *)

(** A segment's length lies within its memory; a chain is well formed when
    each of its segments is. *)
Definition segment_wf (s : segment) : Prop := (seg_len s ≤ length (seg_mem s))%nat.

Definition IOBuf_wf (b : IOBuf) : Prop := Forall segment_wf (IOBuf_segments b).

Section FurtherVocabulary.

Context `{ssl : OpenSSL}.

(** The second call of the encoder reports the number of bytes it stores,
    and that number is within the length announced by the first call (which
    may be larger). *)
Definition stores_what_it_reports (cert : X509) : Prop :=
  (i2d_X509_out cert).1 = ByteRange_size (der cert) ∧
  ByteRange_size (der cert) ≤ i2d_X509_len cert.

(** An entry holds the bytes stored for a certificate, in one unchained
    buffer, and no extension. *)
Definition entry_holds (cert : X509) (entry : CertificateEntry) : Prop :=
  ∃ data : IOBuf,
    cert_data entry = Some data ∧
    IOBuf_coalesce data = der cert ∧
    buf_next data = [] ∧
    extensions entry = [].

(** The decoder inverts the encoder on a certificate: the stored bytes are
    not empty and parse, up to their last byte, to the certificate itself. *)
Definition decodes_back (cert : X509) : Prop :=
  der cert ≠ [] ∧ d2i_X509 (der cert) = Some (cert, length (der cert)).

(** The tag the key of a certificate stands for, if any. *)
Definition key_tag (key : EVP_PKEY) (T : KeyType) : Prop :=
  match T with
  | RSA => EVP_PKEY_id key = EVP_PKEY_RSA
  | P256 => EVP_PKEY_id key = EVP_PKEY_EC ∧ getCurveName key = NID_X9_62_prime256v1
  | P384 => EVP_PKEY_id key = EVP_PKEY_EC ∧ getCurveName key = NID_secp384r1
  | P521 => EVP_PKEY_id key = EVP_PKEY_EC ∧ getCurveName key = NID_secp521r1
  end.

(** The key carries an EC key whose group has the curve name [nid]: stated
    on the collaborator's entry points, not on [getCurveName]. *)
Definition named_curve (key : EVP_PKEY) (nid : Z) : Prop :=
  ∃ ecKey : EC_KEY,
    EVP_PKEY_get0_EC_KEY key = Some ecKey ∧
    EC_GROUP_get_curve_name (EC_KEY_get0_group ecKey) = nid.

(** The table of key types, on the collaborator's entry points: an RSA key
    stands for [RSA], an EC key on P-256, P-384 or P-521 for [P256], [P384]
    or [P521]. *)
Definition key_stands_for (key : EVP_PKEY) (T : KeyType) : Prop :=
  match T with
  | RSA => EVP_PKEY_id key = EVP_PKEY_RSA
  | P256 => EVP_PKEY_id key = EVP_PKEY_EC ∧ named_curve key NID_X9_62_prime256v1
  | P384 => EVP_PKEY_id key = EVP_PKEY_EC ∧ named_curve key NID_secp384r1
  | P521 => EVP_PKEY_id key = EVP_PKEY_EC ∧ named_curve key NID_secp521r1
  end.

End FurtherVocabulary.

(** ** A small collaborator instance

    A miniature certificate format on which the functions can be run: a
    certificate is the two bytes [0x30 k], where [k] selects the public key
    it carries and how the encoder behaves on it. *)
Module Mini.

Definition key_id (k : byte) : Z :=
  match k with
  | x01 => EVP_PKEY_RSA
  | x02 | x03 | x04 | x05 | x06 => EVP_PKEY_EC
  | _ => 116
  end.

Definition curve_name (k : byte) : Z :=
  match k with
  | x02 => NID_X9_62_prime256v1
  | x03 => NID_secp384r1
  | x04 => NID_secp521r1
  | x05 => 409
  | _ => NID_undef
  end.

Definition encode_len (k : byte) : Z :=
  match k with
  | xff => -1
  | _ => 2
  end.

Definition encode_out (k : byte) : Z * list byte :=
  match k with
  | xfe => (-1, [])
  | _ => (2, [x30; k])
  end.

Definition decode (data : ByteRange) : option (byte * nat) :=
  match data with
  | x30 :: k :: _ => Some (k, 2%nat)
  | _ => None
  end.

Definition pubkey (k : byte) : option byte :=
  match k with
  | x00 => None
  | _ => Some k
  end.

Definition ec_key (k : byte) : option byte :=
  match k with
  | x02 | x03 | x04 | x05 => Some k
  | _ => None
  end.

Definition mem_buf (data : list byte) (len : Z) : option (list byte) :=
  if decide (0 ≤ len) then Some (take (Z.to_nat len) data) else None.

Definition read_key (bio : list byte) : option byte :=
  match bio with
  | k :: _ => Some k
  | [] => None
  end.

#[local] Instance ssl : OpenSSL := {|
  X509 := byte;
  EVP_PKEY := byte;
  EC_KEY := byte;
  EC_GROUP := byte;
  BIO := list byte;
  i2d_X509_len := encode_len;
  i2d_X509_out := encode_out;
  d2i_X509 := decode;
  X509_get_pubkey := pubkey;
  EVP_PKEY_id := key_id;
  EVP_PKEY_get0_EC_KEY := ec_key;
  EC_KEY_get0_group := fun k => k;
  EC_GROUP_get_curve_name := curve_name;
  BIO_new_mem_buf := mem_buf;
  PEM_read_bio_PrivateKey := read_key;
  readCertsFromBuffer := fun data => Ret data
|}.

Definition fresh : nat → byte := fun _ => xaa.

End Mini.

(** The same collaborator with an encoder whose first call announces more
    room than the second call uses. *)
Module Roomy.

#[local] Instance ssl : OpenSSL := {|
  X509 := byte;
  EVP_PKEY := byte;
  EC_KEY := byte;
  EC_GROUP := byte;
  BIO := list byte;
  i2d_X509_len := fun _ => 5;
  i2d_X509_out := fun k => (2, [x30; k]);
  d2i_X509 := Mini.decode;
  X509_get_pubkey := Mini.pubkey;
  EVP_PKEY_id := Mini.key_id;
  EVP_PKEY_get0_EC_KEY := Mini.ec_key;
  EC_KEY_get0_group := fun k => k;
  EC_GROUP_get_curve_name := Mini.curve_name;
  BIO_new_mem_buf := Mini.mem_buf;
  PEM_read_bio_PrivateKey := Mini.read_key;
  readCertsFromBuffer := fun data => Ret data
|}.

End Roomy.

(** * Properties *)

(** ** Memory writes *)

Lemma size_add_small (a b : Z) : 0 ≤ a + b ≤ SIZE_MAX → a +sz b = a + b.
Proof. unfold size_add, SIZE_MAX. intros. apply Z.mod_small. lia. Qed.

Lemma length_uninitialized fresh (n : nat) : length (uninitialized fresh n) = n.
Proof. unfold uninitialized. by rewrite length_map, length_seq. Qed.

(** Overwriting the middle part of a buffer. *)
Lemma list_inserts_middle {A} (i : nat) (k l1 l2 l3 : list A) :
  length l1 = i → length k = length l2 →
  list_inserts i k (l1 ++ l2 ++ l3) = l1 ++ k ++ l3.
Proof.
  intros <- Hk.
  rewrite <- (Nat.add_0_r (length l1)), list_inserts_app_r.
  by rewrite list_inserts_0_r.
Qed.

(** A buffer can be cut where the writes will fall. *)
Lemma list_cut {A} (m : list A) (a b : nat) :
  length m = (a + b)%nat →
  ∃ m1 m2, m = m1 ++ m2 ∧ length m1 = a ∧ length m2 = b.
Proof.
  intros Hm. exists (take a m), (drop a m).
  rewrite take_drop, length_take, length_drop. split; [done | lia].
Qed.

Section MemorySteps.

Variable fresh : nat → byte.

Lemma IOBuf_append_create (n : Z) :
  0 ≤ n →
  IOBuf_append n (IOBuf_create fresh n)
  = Ret (mkIOBuf (mkSegment (uninitialized fresh (Z.to_nat n)) (Z.to_nat n)) []).
Proof.
  intros Hn. unfold IOBuf_append, IOBuf_create.
  cbn [buf_head buf_next seg_mem seg_len].
  rewrite length_uninitialized, decide_True by lia. done.
Qed.

Lemma memset_head (m : list byte) (len : nat) (next : list segment)
    (offset : nat) (c : byte) (n : nat) :
  (offset + n ≤ length m)%nat →
  memset (mkIOBuf (mkSegment m len) next) (Z.of_nat offset) c (Z.of_nat n)
  = Ret (mkIOBuf (mkSegment (list_inserts offset (replicate n c) m) len) next).
Proof.
  intros Hn. unfold memset. cbn [buf_head buf_next seg_mem seg_len].
  rewrite decide_True by lia. by rewrite !Nat2Z.id.
Qed.

Lemma memcpy_head (m : list byte) (len : nat) (next : list segment)
    (offset : nat) (src : list byte) :
  (offset + length src ≤ length m)%nat →
  memcpy (mkIOBuf (mkSegment m len) next) (Z.of_nat offset) src (ByteRange_size src)
  = Ret (mkIOBuf (mkSegment (list_inserts offset src m) len) next).
Proof.
  intros Hn. unfold memcpy, ByteRange_size. cbn [buf_head buf_next seg_mem seg_len].
  rewrite decide_True by lia. by rewrite !Nat2Z.id, firstn_all.
Qed.

End MemorySteps.

Import CertUtils.

Section SignData.

Variable fresh : nat → byte.

Lemma length_label_bytes context : length (label_bytes context) = 33%nat.
Proof. by destruct context. Qed.

(** The four writes fill the whole buffer, whatever it held before. *)
Lemma sign_data_writes (m label toBeSigned : list byte) :
  length label = 33%nat →
  length m = (98 + length toBeSigned)%nat →
  list_inserts 98 toBeSigned
    (list_inserts 97 [x00]
       (list_inserts 64 label
          (list_inserts 0 (replicate 64 x20) m)))
  = replicate 64 x20 ++ label ++ [x00] ++ toBeSigned.
Proof.
  intros Hlabel Hm.
  destruct (list_cut m 64 (34 + length toBeSigned)) as (m1 & r1 & -> & Hm1 & Hr1); [lia|].
  destruct (list_cut r1 33 (1 + length toBeSigned)) as (m2 & r2 & -> & Hm2 & Hr2); [lia|].
  destruct (list_cut r2 1 (length toBeSigned)) as (m3 & m4 & -> & Hm3 & Hm4); [lia|].
  rewrite list_inserts_0_r by (by rewrite length_replicate).
  rewrite list_inserts_middle by (rewrite ?length_replicate; lia).
  rewrite (app_assoc (replicate 64 x20) label).
  rewrite list_inserts_middle by (rewrite ?length_app, ?length_replicate; simpl; lia).
  rewrite <- (app_nil_r m4).
  rewrite (app_assoc _ [x00]).
  rewrite list_inserts_middle
    by (rewrite ?length_app, ?length_replicate; simpl; lia).
  by rewrite app_nil_r, <- !app_assoc.
Qed.

(** The buffer built by [prepareSignData], in closed form. *)
Lemma prepareSignData_bytes context (toBeSigned : ByteRange) :
  ByteRange_valid toBeSigned →
  prepareSignData fresh context toBeSigned
  = Ret (Some (IOBuf_of_bytes
                 (replicate 64 x20 ++ label_bytes context ++ [x00] ++ toBeSigned))).
Proof.
  unfold ByteRange_valid, PTRDIFF_MAX. intros Hvalid.
  pose proof (length_label_bytes context) as Hlabel.
  unfold prepareSignData.
  assert (StringPiece_size (if decide (context = Server)
                            then kServerLabel else kClientLabel) = 33) as ->
    by (by destruct context).
  assert (StringPiece_data (if decide (context = Server)
                            then kServerLabel else kClientLabel)
          = label_bytes context) as -> by (by destruct context).
  unfold kSigPrefixLen, kSigPrefix.
  change (0 +sz 64) with 64. change (64 +sz 33) with 97. change (97 +sz 1) with 98.
  rewrite size_add_small by (unfold SIZE_MAX, ByteRange_size in *; lia).
  unfold ByteRange_size in Hvalid.
  rewrite IOBuf_append_create by (unfold ByteRange_size; lia).
  replace (Z.to_nat (98 + ByteRange_size toBeSigned))
    with (98 + length toBeSigned)%nat by (unfold ByteRange_size; lia).
  cbn [mbind outcome_bind].
  rewrite (memset_head _ _ _ 0 x20 64)
    by (rewrite length_uninitialized; lia).
  cbn [mbind outcome_bind].
  assert (H33 : 33 = ByteRange_size (label_bytes context))
    by (unfold ByteRange_size; by rewrite Hlabel).
  rewrite H33.
  rewrite (memcpy_head _ _ _ 64)
    by (rewrite length_inserts, length_uninitialized; lia).
  cbn [mbind outcome_bind].
  rewrite (memset_head _ _ _ 97 x00 1)
    by (rewrite !length_inserts, length_uninitialized; lia).
  cbn [mbind outcome_bind].
  rewrite (memcpy_head _ _ _ 98)
    by (rewrite !length_inserts, length_uninitialized; lia).
  cbn [mbind outcome_bind mret outcome_ret].
  unfold IOBuf_of_bytes. do 4 f_equal.
  - apply sign_data_writes; [done|]. by rewrite length_uninitialized.
  - rewrite !length_app, length_replicate, Hlabel. simpl. lia.
Qed.

End SignData.

Lemma IOBuf_coalesce_of_bytes (l : list byte) : IOBuf_coalesce (IOBuf_of_bytes l) = l.
Proof.
  unfold IOBuf_coalesce, IOBuf_of_bytes, IOBuf_segments, seg_bytes. simpl.
  by rewrite firstn_all, app_nil_r.
Qed.

(** C1. For a byte range [toBeSigned] and either context, [prepareSignData]
    returns one unchained buffer of [64 + label.length + 1 + toBeSigned.length]
    bytes: 64 bytes [0x20], then the ASCII label of the side (the server label
    for [Server], the client label otherwise), then one byte [0x00], then
    [toBeSigned] itself. The contents of the fresh allocation play no role. *)
Theorem prepareSignData_layout (fresh : nat → byte)
    (context : CertificateVerifyContext) (toBeSigned : ByteRange) :
  ByteRange_valid toBeSigned →
  ∃ buf : IOBuf,
    prepareSignData fresh context toBeSigned = Ret (Some buf) ∧
    buf_next buf = [] ∧
    let label :=
      String.list_byte_of_string
        match context with
        | Server => "TLS 1.3, server CertificateVerify"
        | Client => "TLS 1.3, client CertificateVerify"
        end in
    let out := IOBuf_coalesce buf in
    length out = (64 + length label + 1 + length toBeSigned)%nat ∧
    (∀ i, (i < 64)%nat → out !! i = Some x20) ∧
    (∀ i, (i < length label)%nat → out !! (64 + i)%nat = label !! i) ∧
    out !! (64 + length label)%nat = Some x00 ∧
    drop (64 + length label + 1) out = toBeSigned.
Proof.
  intros Hvalid. eexists. split; [by apply prepareSignData_bytes|].
  split; [done|]. intros label out.
  assert (Hlabel : label = label_bytes context) by (by destruct context).
  assert (Hlen : length label = 33%nat) by (rewrite Hlabel; apply length_label_bytes).
  assert (Hout : out = replicate 64 x20 ++ label ++ [x00] ++ toBeSigned).
  { unfold out. by rewrite IOBuf_coalesce_of_bytes, <- Hlabel. }
  clearbody out label. subst out. clear Hlabel.
  split; [|split; [|split; [|split]]].
  - rewrite !length_app, length_replicate. simpl. lia.
  - intros i Hi. rewrite lookup_app_l by (rewrite length_replicate; lia).
    by apply lookup_replicate_2.
  - intros i Hi. rewrite lookup_app_r by (rewrite length_replicate; lia).
    rewrite length_replicate, lookup_app_l by lia. f_equal. lia.
  - rewrite lookup_app_r by (rewrite length_replicate; lia).
    rewrite length_replicate, lookup_app_r by lia.
    by replace (64 + length label - 64 - length label)%nat with 0%nat by lia.
  - rewrite drop_app_ge by (rewrite length_replicate; lia).
    rewrite length_replicate, drop_app_ge by lia.
    by replace (64 + length label + 1 - 64 - length label)%nat with 1%nat by lia.
Qed.

Lemma prepareSignData_layout_witness :
  ByteRange_valid [x01; x02] ∧
  ∃ buf : IOBuf,
    prepareSignData Mini.fresh Server [x01; x02] = Ret (Some buf) ∧
    length (IOBuf_coalesce buf) = 100%nat ∧
    drop 98 (IOBuf_coalesce buf) = [x01; x02].
Proof.
  assert (Hvalid : ByteRange_valid [x01; x02])
    by (unfold ByteRange_valid, ByteRange_size, PTRDIFF_MAX; simpl; lia).
  split; [exact Hvalid|].
  destruct (prepareSignData_layout Mini.fresh Server [x01; x02] Hvalid)
    as (buf & Hret & _ & Hlen & _ & _ & _ & Hdrop).
  exists buf. repeat split; [exact Hret | exact Hlen | exact Hdrop].
Defined.

(** C2. For a byte range [toBeSigned], the buffers that [prepareSignData]
    returns for [Server] and for [Client] hold different bytes (even when the
    two calls find different contents in their fresh allocations). *)
Theorem prepareSignData_server_client_differ (fresh fresh' : nat → byte)
    (toBeSigned : ByteRange) :
  ByteRange_valid toBeSigned →
  ∃ server client : IOBuf,
    prepareSignData fresh Server toBeSigned = Ret (Some server) ∧
    prepareSignData fresh' Client toBeSigned = Ret (Some client) ∧
    IOBuf_coalesce server ≠ IOBuf_coalesce client ∧
    prepareSignData fresh Server toBeSigned ≠ prepareSignData fresh' Client toBeSigned.
Proof.
  intros Hvalid.
  pose proof (prepareSignData_bytes fresh Server toBeSigned Hvalid) as Hs.
  pose proof (prepareSignData_bytes fresh' Client toBeSigned Hvalid) as Hc.
  assert (Hne : replicate 64 x20 ++ label_bytes Server ++ [x00] ++ toBeSigned
                ≠ replicate 64 x20 ++ label_bytes Client ++ [x00] ++ toBeSigned).
  { intros Heq. apply (f_equal (λ l : list byte, l !! 73%nat)) in Heq.
    rewrite !lookup_app_r in Heq by (rewrite length_replicate; lia).
    rewrite length_replicate in Heq.
    rewrite !lookup_app_l in Heq by (rewrite length_label_bytes; lia).
    discriminate Heq. }
  eexists _, _. split; [exact Hs|]. split; [exact Hc|]. split.
  - by rewrite !IOBuf_coalesce_of_bytes.
  - rewrite Hs, Hc. intros Heq. apply Hne.
    assert (Hbuf : ∀ a b : IOBuf, Ret (Some a) = Ret (Some b) → a = b) by congruence.
    apply Hbuf, (f_equal IOBuf_coalesce) in Heq.
    by rewrite !IOBuf_coalesce_of_bytes in Heq.
Qed.

Lemma prepareSignData_server_client_differ_witness :
  ByteRange_valid [x01; x02] ∧
  prepareSignData Mini.fresh Server [x01; x02]
  ≠ prepareSignData (λ _, x00) Client [x01; x02].
Proof.
  assert (Hvalid : ByteRange_valid [x01; x02])
    by (unfold ByteRange_valid, ByteRange_size, PTRDIFF_MAX; simpl; lia).
  split; [exact Hvalid|].
  destruct (prepareSignData_server_client_differ Mini.fresh (λ _, x00) [x01; x02] Hvalid)
    as (server & client & _ & _ & _ & Hne).
  exact Hne.
Defined.

(** ** The Certificate message *)

Section CertMessage.

Context `{ssl : OpenSSL}.
Variable fresh : nat → byte.

Lemma getCertMessage_loop_encodes (certs : list X509) (entries : list CertificateEntry) :
  Forall encodes certs →
  getCertMessage_loop fresh certs entries = Ret (entries ++ map entry_of certs).
Proof.
  intros Hall. revert entries.
  induction Hall as [|cert certs [Hlen Hout] _ IH]; intros entries.
  - simpl. by rewrite app_nil_r.
  - cbn [getCertMessage_loop].
    assert (Hpair : i2d_X509_out cert = (ByteRange_size (der cert), der cert)).
    { unfold der in *. by destruct (i2d_X509_out cert) as [len stored]; simplify_eq/=. }
    rewrite Hpair, Hlen. clear Hpair Hlen Hout.
    set (stored := der cert). unfold ByteRange_size.
    rewrite decide_False by lia.
    unfold IOBuf_create.
    change (Z.of_nat (length stored)) with (ByteRange_size stored) at 2.
    rewrite (memcpy_head _ _ _ 0)
      by (rewrite length_uninitialized; lia).
    cbn [mbind outcome_bind]. unfold ByteRange_size.
    rewrite decide_False by lia.
    unfold IOBuf_append. cbn [buf_head buf_next seg_mem seg_len].
    rewrite length_inserts, length_uninitialized, decide_True by lia.
    cbn [mbind outcome_bind].
    rewrite IH, <- app_assoc. do 2 f_equal.
    unfold entry_of, IOBuf_of_bytes. fold stored. simpl. rewrite Nat2Z.id. do 4 f_equal.
    rewrite <- (app_nil_r (uninitialized fresh _)).
    rewrite list_inserts_0_r by (by rewrite length_uninitialized).
    by rewrite app_nil_r.
Qed.

Lemma getCertMessage_encodes (certs : list X509) (ctx : Buf) :
  Forall encodes certs →
  getCertMessage fresh certs ctx = Ret (mkCertificateMsg ctx (map entry_of certs)).
Proof.
  intros Hall. unfold getCertMessage.
  by rewrite getCertMessage_loop_encodes.
Qed.

(** One turn of the loop on a certificate whose encoding does not fail. *)
Lemma getCertMessage_loop_step cert certs (entries : list CertificateEntry) :
  i2d_in_bounds cert → ¬ encode_fails cert →
  ∃ entry, getCertMessage_loop fresh (cert :: certs) entries
           = getCertMessage_loop fresh certs (entries ++ [entry]).
Proof.
  unfold i2d_in_bounds, encode_fails, der, ByteRange_size. intros Hsafe Hok.
  cbn [getCertMessage_loop].
  destruct (i2d_X509_out cert) as [len stored]; simpl in Hsafe, Hok.
  rewrite decide_False by lia.
  destruct Hsafe as [Hstored Hlen]; [lia|].
  unfold IOBuf_create.
  change (Z.of_nat (length stored)) with (ByteRange_size stored).
  rewrite (memcpy_head _ _ _ 0) by (rewrite length_uninitialized; lia).
  cbn [mbind outcome_bind].
  rewrite decide_False by lia.
  unfold IOBuf_append. cbn [buf_head buf_next seg_mem seg_len].
  rewrite length_inserts, length_uninitialized, decide_True by lia.
  cbn [mbind outcome_bind]. by eexists.
Qed.

(** One turn of the loop on a certificate whose encoding fails. *)
Lemma getCertMessage_loop_fail cert certs (entries : list CertificateEntry) :
  i2d_in_bounds cert → encode_fails cert →
  getCertMessage_loop fresh (cert :: certs) entries
  = Throw (runtime_error "Error computing length") ∨
  getCertMessage_loop fresh (cert :: certs) entries
  = Throw (runtime_error "Error converting cert to DER").
Proof.
  unfold i2d_in_bounds, encode_fails, der, ByteRange_size. intros Hsafe Hfail.
  cbn [getCertMessage_loop].
  destruct (decide (i2d_X509_len cert < 0)) as [Hneg|Hpos]; [by left|right].
  destruct (i2d_X509_out cert) as [len stored]; simpl in Hsafe, Hfail.
  destruct Hsafe as [Hstored Hlen]; [lia|].
  unfold IOBuf_create.
  change (Z.of_nat (length stored)) with (ByteRange_size stored).
  rewrite (memcpy_head _ _ _ 0) by (rewrite length_uninitialized; lia).
  cbn [mbind outcome_bind].
  by rewrite decide_True by lia.
Qed.

Lemma getCertMessage_loop_outcome (certs : list X509) (entries : list CertificateEntry) :
  Forall i2d_in_bounds certs →
  (Exists encode_fails certs →
   getCertMessage_loop fresh certs entries = Throw (runtime_error "Error computing length") ∨
   getCertMessage_loop fresh certs entries = Throw (runtime_error "Error converting cert to DER")) ∧
  (¬ Exists encode_fails certs → returns (getCertMessage_loop fresh certs entries)).
Proof.
  intros Hall. revert entries.
  induction Hall as [|cert certs Hsafe _ IH]; intros entries.
  - split; [by inversion 1 | by eexists].
  - destruct (decide (encode_fails cert)) as [Hfail|Hok].
    + split; [intros _ | intros []; by left].
      by apply getCertMessage_loop_fail.
    + destruct (getCertMessage_loop_step cert certs entries Hsafe Hok) as [entry ->].
      destruct (IH (entries ++ [entry])) as [IHfail IHok].
      split; intros H.
      * apply IHfail. by inversion H.
      * apply IHok. contradict H. by right.
Qed.

(** The loop returns only if no encoding step reported a negative length. *)
Lemma getCertMessage_loop_returns (certs : list X509) (entries : list CertificateEntry) :
  returns (getCertMessage_loop fresh certs entries) →
  Forall (λ cert, ¬ encode_fails cert) certs.
Proof.
  revert entries. induction certs as [|cert certs IH]; intros entries [es Hes]; [done|].
  cbn [getCertMessage_loop] in Hes.
  destruct (decide (i2d_X509_len cert < 0)) as [Hneg|Hpos]; [done|].
  assert (Hok : ¬ encode_fails cert ∧
                ∃ entries', returns (getCertMessage_loop fresh certs entries')).
  { unfold encode_fails.
    destruct (i2d_X509_out cert) as [len stored]; simpl.
    destruct (memcpy _ _ _ _) as [buf| |]; [|done..].
    cbn [mbind outcome_bind] in Hes.
    destruct (decide (len < 0)) as [Hneg'|Hpos']; [done|].
    destruct (IOBuf_append _ _) as [buf'| |]; [|done..].
    cbn [mbind outcome_bind] in Hes.
    split; [lia|]. eexists. by exists es. }
  destruct Hok as [Hok [entries' Hret]].
  constructor; [exact Hok | by eapply IH].
Qed.

(** C3. When each of the N input certificates encodes, [getCertMessage]
    returns a message with N entries in input order: entry [i] holds, in one
    unchained buffer, the DER bytes of certificate [i], and no extension; the
    request context of the message is the one given. *)
Theorem getCertMessage_preserves_chain (certs : list X509) (ctx : Buf) :
  Forall encodes certs →
  ∃ msg : CertificateMsg,
    getCertMessage fresh certs ctx = Ret msg ∧
    length (certificate_list msg) = length certs ∧
    (∀ (i : nat) (cert : X509), certs !! i = Some cert →
       ∃ (entry : CertificateEntry) (data : IOBuf),
         certificate_list msg !! i = Some entry ∧
         cert_data entry = Some data ∧
         IOBuf_coalesce data = der cert ∧
         buf_next data = [] ∧
         extensions entry = []) ∧
    Forall (λ entry, extensions entry = []) (certificate_list msg) ∧
    certificate_request_context msg = ctx.
Proof.
  intros Hall. eexists. split; [by apply getCertMessage_encodes|].
  cbn [certificate_list certificate_request_context].
  split; [by rewrite length_map|]. split; [|split; [|done]].
  - intros i cert Hi. exists (entry_of cert), (IOBuf_of_bytes (der cert)).
    rewrite list_lookup_fmap, Hi. repeat split.
    apply IOBuf_coalesce_of_bytes.
  - by apply Forall_fmap, Forall_true.
Qed.

(** C4. [getCertMessage] returns a message only if no certificate of the
    input made the encoder report a negative length. When some certificate
    does (at the length computation or at the encoding itself), and the
    encoder stays within the length it announced, the call throws one of the
    two encoding errors, so no message, complete or partial, is returned. *)
Theorem getCertMessage_encoding_error (certs : list X509) (ctx : Buf) :
  (returns (getCertMessage fresh certs ctx) →
   Forall (λ cert, ¬ encode_fails cert) certs) ∧
  (Forall i2d_in_bounds certs → Exists encode_fails certs →
   getCertMessage fresh certs ctx = Throw (runtime_error "Error computing length") ∨
   getCertMessage fresh certs ctx = Throw (runtime_error "Error converting cert to DER")) ∧
  (Forall i2d_in_bounds certs → ¬ Exists encode_fails certs →
   returns (getCertMessage fresh certs ctx)).
Proof.
  unfold getCertMessage. split; [|split].
  - intros [msg Hmsg]. apply (getCertMessage_loop_returns certs []).
    destruct (getCertMessage_loop fresh certs []) as [es| |]; [by exists es|done..].
  - intros Hsafe Hfail.
    destruct (getCertMessage_loop_outcome certs [] Hsafe) as [Hthrow _].
    destruct (Hthrow Hfail) as [-> | ->]; [by left | by right].
  - intros Hsafe Hok.
    destruct (getCertMessage_loop_outcome certs [] Hsafe) as [_ Hret].
    destruct (Hret Hok) as [es ->]. by eexists.
Qed.

(** C10. On an empty certificate sequence [getCertMessage] returns the
    message with an empty certificate list and the given request context. *)
Theorem getCertMessage_empty (ctx : Buf) :
  getCertMessage fresh [] ctx
  = Ret {| certificate_request_context := ctx; certificate_list := [] |}.
Proof. reflexivity. Qed.

End CertMessage.

(** ** Peer certificates *)

Section PeerCert.

Context `{ssl : OpenSSL}.

Lemma IOBuf_empty_coalesce (b : IOBuf) : IOBuf_empty b = true → IOBuf_coalesce b = [].
Proof.
  unfold IOBuf_empty, IOBuf_coalesce. generalize (IOBuf_segments b) as segs.
  induction segs as [|s segs IH]; [done|]. simpl.
  intros [Hs Hsegs]%andb_prop. apply Nat.eqb_eq in Hs.
  unfold seg_bytes at 1. rewrite Hs. simpl. by apply IH.
Qed.

Lemma IOBuf_empty_of_bytes (l : list byte) : l ≠ [] → IOBuf_empty (IOBuf_of_bytes l) = false.
Proof. by destruct l. Qed.

(** What [makePeerCert] does once the certificate and its key are known. *)
Lemma makePeerCert_parsed (certData : IOBuf) (cert : X509) (n : nat) (key : EVP_PKEY) :
  IOBuf_empty certData = false →
  d2i_X509 (IOBuf_coalesce certData) = Some (cert, n) →
  X509_get_pubkey cert = Some key →
  (makePeerCert (Some certData)).2 =
    if decide (EVP_PKEY_id key = EVP_PKEY_RSA) then Ret (PeerCertImpl RSA cert)
    else if decide (EVP_PKEY_id key = EVP_PKEY_EC) then
      if decide (getCurveName key = NID_X9_62_prime256v1) then Ret (PeerCertImpl P256 cert)
      else if decide (getCurveName key = NID_secp384r1) then Ret (PeerCertImpl P384 cert)
      else if decide (getCurveName key = NID_secp521r1) then Ret (PeerCertImpl P521 cert)
      else Throw (runtime_error "unknown peer cert type")
    else Throw (runtime_error "unknown peer cert type").
Proof.
  intros Hne Hparse Hkey. unfold makePeerCert. rewrite Hne, Hparse, Hkey.
  by repeat case_decide.
Qed.

(** C5. [makePeerCert] throws "empty peer cert" on an empty buffer, "could
    not read cert" when the bytes do not parse as a certificate, "couldn't get
    pubkey from peer cert" when the parsed certificate yields no public key,
    "unknown peer cert type" when the key is neither RSA nor on a recognized
    curve, and returns a [PeerCert] in the remaining case. *)
Theorem makePeerCert_failures (certData : IOBuf) :
  let result := (makePeerCert (Some certData)).2 in
  (IOBuf_empty certData = true →
   result = Throw (runtime_error "empty peer cert")) ∧
  (IOBuf_empty certData = false →
   d2i_X509 (IOBuf_coalesce certData) = None →
   result = Throw (runtime_error "could not read cert")) ∧
  (∀ cert n,
     IOBuf_empty certData = false →
     d2i_X509 (IOBuf_coalesce certData) = Some (cert, n) →
     (X509_get_pubkey cert = None →
      result = Throw (runtime_error "couldn't get pubkey from peer cert")) ∧
     (∀ key, X509_get_pubkey cert = Some key →
        (EVP_PKEY_id key ≠ EVP_PKEY_RSA → ¬ recognized_curve key →
         result = Throw (runtime_error "unknown peer cert type")) ∧
        (EVP_PKEY_id key = EVP_PKEY_RSA ∨ recognized_curve key →
         ∃ T, result = Ret (PeerCertImpl T cert)))).
Proof.
  intros result. split; [|split].
  - intros Hempty. unfold result, makePeerCert. by rewrite Hempty.
  - intros Hne Hparse. unfold result, makePeerCert. by rewrite Hne, Hparse.
  - intros cert n Hne Hparse. split.
    + intros Hkey. unfold result, makePeerCert. by rewrite Hne, Hparse, Hkey.
    + intros key Hkey. unfold result.
      rewrite (makePeerCert_parsed certData cert n key Hne Hparse Hkey).
      unfold recognized_curve. split.
      * intros Hrsa Hcurve. repeat case_decide; try done; exfalso; apply Hcurve; tauto.
      * intros Hok. repeat case_decide; eauto.
        all: exfalso; destruct Hok as [?|[? [?|[?|?]]]]; done.
Qed.

(** [getCurveName] reads the curve name of the group of the key's EC key,
    and gives 0 when the key has no EC key. *)
Lemma getCurveName_named (key : EVP_PKEY) (nid : Z) :
  nid ≠ 0 → getCurveName key = nid ↔ named_curve key nid.
Proof.
  intros Hnid. unfold getCurveName, named_curve.
  destruct (EVP_PKEY_get0_EC_KEY key) as [ecKey|].
  - split; [intros Hcurve; by exists ecKey|]. by intros (ecKey' & [= <-] & Hcurve).
  - split; [done|]. by intros (ecKey' & ? & _).
Qed.

Lemma getCurveName_undef (key : EVP_PKEY) :
  getCurveName key = 0 ↔ EVP_PKEY_get0_EC_KEY key = None ∨ named_curve key NID_undef.
Proof.
  unfold getCurveName, named_curve, NID_undef.
  destruct (EVP_PKEY_get0_EC_KEY key) as [ecKey|].
  - split.
    + intros Hcurve. right. by exists ecKey.
    + intros [?|(ecKey' & [= <-] & Hcurve)]; done.
  - split; [by left | done].
Qed.

(** C6. Once a public key is extracted, the tag of the result is decided by
    what the library reports of the key: [RSA] exactly when its id is RSA
    (nothing else is looked at); [P256], [P384], [P521] exactly when its id is
    EC and the group of its EC key has the curve name of P-256, P-384, P-521;
    "unknown peer cert type" exactly for every other key, among them an EC
    key with no EC key handle or with the undefined curve name. The key stands
    for at most one tag, and a returned certificate carries that tag. *)
Theorem makePeerCert_classification
    (certData : IOBuf) (cert : X509) (n : nat) (key : EVP_PKEY) :
  IOBuf_empty certData = false →
  d2i_X509 (IOBuf_coalesce certData) = Some (cert, n) →
  X509_get_pubkey cert = Some key →
  let result := (makePeerCert (Some certData)).2 in
  (result = Ret (PeerCertImpl RSA cert) ↔ EVP_PKEY_id key = EVP_PKEY_RSA) ∧
  (result = Ret (PeerCertImpl P256 cert) ↔
   EVP_PKEY_id key = EVP_PKEY_EC ∧
   ∃ ecKey, EVP_PKEY_get0_EC_KEY key = Some ecKey ∧
            EC_GROUP_get_curve_name (EC_KEY_get0_group ecKey) = NID_X9_62_prime256v1) ∧
  (result = Ret (PeerCertImpl P384 cert) ↔
   EVP_PKEY_id key = EVP_PKEY_EC ∧
   ∃ ecKey, EVP_PKEY_get0_EC_KEY key = Some ecKey ∧
            EC_GROUP_get_curve_name (EC_KEY_get0_group ecKey) = NID_secp384r1) ∧
  (result = Ret (PeerCertImpl P521 cert) ↔
   EVP_PKEY_id key = EVP_PKEY_EC ∧
   ∃ ecKey, EVP_PKEY_get0_EC_KEY key = Some ecKey ∧
            EC_GROUP_get_curve_name (EC_KEY_get0_group ecKey) = NID_secp521r1) ∧
  (result = Throw (runtime_error "unknown peer cert type") ↔
   ∀ T, ¬ key_stands_for key T) ∧
  (EVP_PKEY_id key = EVP_PKEY_EC →
   EVP_PKEY_get0_EC_KEY key = None ∨
   (∃ ecKey, EVP_PKEY_get0_EC_KEY key = Some ecKey ∧
             EC_GROUP_get_curve_name (EC_KEY_get0_group ecKey) = NID_undef) →
   result = Throw (runtime_error "unknown peer cert type")) ∧
  (EVP_PKEY_id key ≠ EVP_PKEY_RSA → EVP_PKEY_id key ≠ EVP_PKEY_EC →
   result = Throw (runtime_error "unknown peer cert type")) ∧
  (∀ T T', key_stands_for key T → key_stands_for key T' → T = T') ∧
  (∀ p, result = Ret p → ∃ T, key_stands_for key T ∧ p = PeerCertImpl T cert).
Proof.
  intros Hne Hparse Hkey result. unfold result.
  rewrite (makePeerCert_parsed certData cert n key Hne Hparse Hkey).
  pose proof (getCurveName_named key NID_X9_62_prime256v1) as H256.
  pose proof (getCurveName_named key NID_secp384r1) as H384.
  pose proof (getCurveName_named key NID_secp521r1) as H521.
  pose proof (getCurveName_undef key) as Hundef.
  fold (named_curve key NID_X9_62_prime256v1).
  fold (named_curve key NID_secp384r1).
  fold (named_curve key NID_secp521r1).
  fold (named_curve key NID_undef).
  assert (Hfun : ∀ a b, named_curve key a → named_curve key b → a = b).
  { intros a b (k1 & Hk1 & <-) (k2 & Hk2 & <-). congruence. }
  assert (Hstands : ∀ T, key_stands_for key T ↔
            match T with
            | RSA => EVP_PKEY_id key = EVP_PKEY_RSA
            | P256 => EVP_PKEY_id key = EVP_PKEY_EC ∧ getCurveName key = NID_X9_62_prime256v1
            | P384 => EVP_PKEY_id key = EVP_PKEY_EC ∧ getCurveName key = NID_secp384r1
            | P521 => EVP_PKEY_id key = EVP_PKEY_EC ∧ getCurveName key = NID_secp521r1
            end).
  { intros []; simpl; [done|..].
    - by rewrite H256.
    - by rewrite H384.
    - by rewrite H521. }
  rewrite <- H256, <- H384, <- H521 by done. clear H256 H384 H521.
  assert (Hexcl : ∀ T T', key_stands_for key T → key_stands_for key T' → T = T').
  { intros T T' HT%Hstands HT'%Hstands. revert HT HT'.
    unfold EVP_PKEY_RSA, EVP_PKEY_EC, NID_X9_62_prime256v1, NID_secp384r1, NID_secp521r1.
    destruct T, T'; intros; try done; exfalso; lia. }
  split; [|split; [|split; [|split; [|split; [|split; [|split; [|split; [exact Hexcl|]]]]]]]].
  - unfold EVP_PKEY_RSA, EVP_PKEY_EC. repeat case_decide; split; intros; try done; lia.
  - unfold EVP_PKEY_RSA, EVP_PKEY_EC. repeat case_decide; split; intros; try done; lia.
  - unfold EVP_PKEY_RSA, EVP_PKEY_EC, NID_X9_62_prime256v1, NID_secp384r1.
    repeat case_decide; split; intros; try done; lia.
  - unfold EVP_PKEY_RSA, EVP_PKEY_EC, NID_X9_62_prime256v1, NID_secp384r1, NID_secp521r1.
    repeat case_decide; split; intros; try done; lia.
  - split.
    + intros Hthrow T HT%Hstands.
      destruct T; repeat case_decide; try done; tauto.
    + intros Hnone.
      pose proof (Hnone RSA) as Hrsa. pose proof (Hnone P256) as Hp256.
      pose proof (Hnone P384) as Hp384. pose proof (Hnone P521) as Hp521.
      rewrite Hstands in Hrsa, Hp256, Hp384, Hp521.
      repeat case_decide; try done; tauto.
  - intros Hec Hno%Hundef. revert Hec Hno.
    unfold EVP_PKEY_RSA, EVP_PKEY_EC, NID_X9_62_prime256v1, NID_secp384r1, NID_secp521r1.
    intros. repeat case_decide; try done; lia.
  - intros Hrsa Hec. by repeat case_decide.
  - intros p Hret.
    repeat case_decide; simplify_eq;
      [exists RSA | exists P256 | exists P384 | exists P521];
      (split; [apply Hstands; done | done]).
Qed.

(** C7. When parsing stops before the end of the buffer, [makePeerCert]
    only writes a diagnostic: its result is the one it gives on the consumed
    prefix alone (on which nothing is written), and in particular it is not
    a parse error. *)
Theorem makePeerCert_trailing_bytes (certData : IOBuf) (cert : X509) (n : nat) :
  d2i_X509 (IOBuf_coalesce certData) = Some (cert, n) →
  (0 < n < length (IOBuf_coalesce certData))%nat →
  d2i_X509 (take n (IOBuf_coalesce certData)) = Some (cert, n) →
  let whole := makePeerCert (Some certData) in
  let prefix := makePeerCert (Some (IOBuf_of_bytes (take n (IOBuf_coalesce certData)))) in
  whole.2 = prefix.2 ∧
  whole.1 = ["Did not read to end of certificate"%string] ∧
  prefix.1 = [] ∧
  whole.2 ≠ Throw (runtime_error "empty peer cert") ∧
  whole.2 ≠ Throw (runtime_error "could not read cert") ∧
  (∀ p, prefix.2 = Ret p → whole.2 = Ret p).
Proof.
  intros Hparse [Hpos Hlt] Hprefix whole prefix.
  assert (Hne : IOBuf_empty certData = false).
  { destruct (IOBuf_empty certData) eqn:Hempty; [|done].
    apply IOBuf_empty_coalesce in Hempty. rewrite Hempty in Hlt. simpl in Hlt. lia. }
  assert (Hne' : IOBuf_empty (IOBuf_of_bytes (take n (IOBuf_coalesce certData))) = false).
  { apply IOBuf_empty_of_bytes. intros Hnil. apply (f_equal length) in Hnil.
    rewrite length_take in Hnil. simpl in Hnil. lia. }
  assert (Hw : whole =
    (["Did not read to end of certificate"%string],
     (makePeerCert (Some (IOBuf_of_bytes (take n (IOBuf_coalesce certData))))).2)).
  { unfold whole, makePeerCert.
    rewrite Hne, Hne', Hparse, IOBuf_coalesce_of_bytes, Hprefix.
    rewrite decide_True by lia.
    destruct (X509_get_pubkey cert) as [key|]; [|done].
    by repeat case_decide. }
  assert (Hp : prefix.1 = []).
  { unfold prefix, makePeerCert.
    rewrite Hne', IOBuf_coalesce_of_bytes, Hprefix.
    rewrite decide_False by (rewrite length_take; lia).
    destruct (X509_get_pubkey cert) as [key|]; [|done].
    by repeat case_decide. }
  assert (Hr : whole.2 = prefix.2) by (by rewrite Hw).
  split; [exact Hr|]. split; [by rewrite Hw|]. split; [exact Hp|].
  assert (Hcases : ∀ msg, msg ≠ "couldn't get pubkey from peer cert"%string →
                          msg ≠ "unknown peer cert type"%string →
                          whole.2 ≠ Throw (runtime_error msg)).
  { intros msg Hm1 Hm2. unfold whole, makePeerCert. rewrite Hne, Hparse.
    destruct (X509_get_pubkey cert) as [key|]; repeat case_decide; simpl; congruence. }
  split; [by apply Hcases|]. split; [by apply Hcases|].
  intros p Hret. by rewrite Hr.
Qed.

End PeerCert.

(** ** Self certificates *)

Section SelfCert.

Context `{ssl : OpenSSL}.

(** [makeSelfCert] on a sequence with a leaf whose key is known. *)
Lemma makeSelfCert_leaf (leaf : X509) (rest : list X509) (key pubKey : EVP_PKEY) :
  X509_get_pubkey leaf = Some pubKey →
  makeSelfCert (leaf :: rest) key =
    if decide (EVP_PKEY_id pubKey = EVP_PKEY_RSA) then Ret (SelfCertImpl RSA key (leaf :: rest))
    else if decide (EVP_PKEY_id pubKey = EVP_PKEY_EC) then
      if decide (getCurveName pubKey = NID_X9_62_prime256v1)
      then Ret (SelfCertImpl P256 key (leaf :: rest))
      else if decide (getCurveName pubKey = NID_secp384r1)
      then Ret (SelfCertImpl P384 key (leaf :: rest))
      else if decide (getCurveName pubKey = NID_secp521r1)
      then Ret (SelfCertImpl P521 key (leaf :: rest))
      else Throw (runtime_error "unknown self cert type")
    else Throw (runtime_error "unknown self cert type").
Proof.
  intros Hkey. unfold makeSelfCert. cbn [front mbind outcome_bind].
  by rewrite Hkey.
Qed.

(** On a non-empty sequence, "Failed to read public key" is thrown exactly
    when the leaf certificate yields no public key. *)
Lemma makeSelfCert_missing_key (leaf : X509) (rest : list X509) (key : EVP_PKEY) :
  makeSelfCert (leaf :: rest) key = Throw (runtime_error "Failed to read public key")
  ↔ X509_get_pubkey leaf = None.
Proof.
  unfold makeSelfCert. cbn [front mbind outcome_bind].
  destruct (X509_get_pubkey leaf) as [pubKey|]; [|done].
  split; [|done]. by repeat case_decide.
Qed.

(** C9 (the code at the failing input). With an empty certificate sequence
    [makeSelfCert] evaluates [certs.front()] on an empty vector: the call has
    undefined behaviour, it neither throws nor returns. *)
Theorem makeSelfCert_empty_undefined (key : EVP_PKEY) :
  makeSelfCert [] key = Undefined ∧
  ¬ throws (makeSelfCert [] key) ∧
  ¬ returns (makeSelfCert [] key).
Proof. split; [done|]. split; by intros [? ?]. Qed.

(** C8. The overload taking the chain and the key as bytes throws "no
    certificates read" when no certificate is recovered; with certificates
    recovered it throws "failed to create BIO" or "Failed to read key" when no
    private key is obtained from the key bytes, and otherwise it is exactly
    the overload on the recovered sequence and key. *)
Theorem makeSelfCert_data_delegates (certData keyData : list byte) :
  (readCertsFromBuffer certData = Ret [] →
   makeSelfCert_data certData keyData = Throw (runtime_error "no certificates read")) ∧
  (∀ certs, readCertsFromBuffer certData = Ret certs → certs ≠ [] →
     let bio := BIO_new_mem_buf keyData (int_of_size (ByteRange_size keyData)) in
     (bio = None →
      makeSelfCert_data certData keyData = Throw (runtime_error "failed to create BIO")) ∧
     (∀ b, bio = Some b → PEM_read_bio_PrivateKey b = None →
        makeSelfCert_data certData keyData = Throw (runtime_error "Failed to read key")) ∧
     (∀ b key, bio = Some b → PEM_read_bio_PrivateKey b = Some key →
        makeSelfCert_data certData keyData = makeSelfCert certs key)).
Proof.
  unfold makeSelfCert_data. split.
  - by intros ->.
  - intros certs Hread Hcerts. cbv zeta. rewrite Hread. cbn [mbind outcome_bind].
    rewrite decide_False by done.
    split; [by intros ->|]. split.
    + by intros b -> ->.
    + by intros b key -> ->.
Qed.

(** Both factories classify a key in the same way. *)
Lemma classification_agrees
    (certData : IOBuf) (leaf : X509) (n : nat) (rest : list X509) (key pubKey : EVP_PKEY) :
  IOBuf_empty certData = false →
  d2i_X509 (IOBuf_coalesce certData) = Some (leaf, n) →
  X509_get_pubkey leaf = Some pubKey →
  match (makePeerCert (Some certData)).2, makeSelfCert (leaf :: rest) key with
  | Ret p, Ret s => PeerCert_type p = SelfCert_type s
  | Throw _, Throw _ => True
  | _, _ => False
  end.
Proof.
  intros Hne Hparse Hkey.
  rewrite (makePeerCert_parsed certData leaf n pubKey Hne Hparse Hkey).
  rewrite (makeSelfCert_leaf leaf rest key pubKey Hkey).
  by repeat case_decide.
Qed.

End SelfCert.

Lemma getCertMessage_preserves_chain_witness :
  Forall (encodes (ssl := Mini.ssl)) [x01; x02] ∧
  ∃ msg : CertificateMsg,
    getCertMessage (ssl := Mini.ssl) Mini.fresh [x01; x02] None = Ret msg ∧
    length (certificate_list msg) = 2%nat.
Proof.
  assert (Hall : Forall (encodes (ssl := Mini.ssl)) [x01; x02])
    by (repeat apply Forall_cons_2; try apply Forall_nil_2; split; reflexivity).
  split; [exact Hall|].
  destruct (getCertMessage_preserves_chain (ssl := Mini.ssl) Mini.fresh [x01; x02] None Hall)
    as (msg & Hret & Hlen & _).
  exists msg. split; [exact Hret | exact Hlen].
Defined.

Lemma getCertMessage_encoding_error_witness :
  Forall (i2d_in_bounds (ssl := Mini.ssl)) [x01; xfe] ∧
  Exists (encode_fails (ssl := Mini.ssl)) [x01; xfe] ∧
  (getCertMessage (ssl := Mini.ssl) Mini.fresh [x01; xfe] None
   = Throw (runtime_error "Error computing length") ∨
   getCertMessage (ssl := Mini.ssl) Mini.fresh [x01; xfe] None
   = Throw (runtime_error "Error converting cert to DER")).
Proof.
  assert (Hsafe : Forall (i2d_in_bounds (ssl := Mini.ssl)) [x01; xfe]).
  { repeat constructor; unfold ByteRange_size; simpl; lia. }
  assert (Hfail : Exists (encode_fails (ssl := Mini.ssl)) [x01; xfe]).
  { right. left. right. simpl. lia. }
  split; [exact Hsafe|]. split; [exact Hfail|].
  exact (proj1 (proj2 (getCertMessage_encoding_error (ssl := Mini.ssl)
                        Mini.fresh [x01; xfe] None)) Hsafe Hfail).
Defined.

Lemma makePeerCert_failures_witness :
  (makePeerCert (ssl := Mini.ssl) (Some (IOBuf_of_bytes []))).2
  = Throw (runtime_error "empty peer cert") ∧
  (makePeerCert (ssl := Mini.ssl) (Some (IOBuf_of_bytes [x31; x01]))).2
  = Throw (runtime_error "could not read cert") ∧
  (makePeerCert (ssl := Mini.ssl) (Some (IOBuf_of_bytes [x30; x00]))).2
  = Throw (runtime_error "couldn't get pubkey from peer cert").
Proof.
  split; [|split].
  - exact (proj1 (makePeerCert_failures (ssl := Mini.ssl) (IOBuf_of_bytes [])) eq_refl).
  - exact (proj1 (proj2 (makePeerCert_failures (ssl := Mini.ssl) (IOBuf_of_bytes [x31; x01])))
             eq_refl eq_refl).
  - exact (proj1 (proj2 (proj2 (makePeerCert_failures (ssl := Mini.ssl)
                                  (IOBuf_of_bytes [x30; x00])))
                    x00 2%nat eq_refl eq_refl) eq_refl).
Defined.

Lemma makePeerCert_classification_witness :
  (makePeerCert (ssl := Mini.ssl) (Some (IOBuf_of_bytes [x30; x02]))).2
  = Ret (PeerCertImpl (ssl := Mini.ssl) P256 x02) ∧
  (makePeerCert (ssl := Mini.ssl) (Some (IOBuf_of_bytes [x30; x03]))).2
  = Ret (PeerCertImpl (ssl := Mini.ssl) P384 x03) ∧
  (makePeerCert (ssl := Mini.ssl) (Some (IOBuf_of_bytes [x30; x06]))).2
  = Throw (runtime_error "unknown peer cert type").
Proof.
  pose proof (makePeerCert_classification (ssl := Mini.ssl)
                (IOBuf_of_bytes [x30; x02]) x02 2%nat x02 eq_refl eq_refl eq_refl)
    as (_ & Hp256 & _).
  pose proof (makePeerCert_classification (ssl := Mini.ssl)
                (IOBuf_of_bytes [x30; x03]) x03 2%nat x03 eq_refl eq_refl eq_refl)
    as (_ & _ & Hp384 & _).
  pose proof (makePeerCert_classification (ssl := Mini.ssl)
                (IOBuf_of_bytes [x30; x06]) x06 2%nat x06 eq_refl eq_refl eq_refl)
    as (_ & _ & _ & _ & _ & Hnone & _).
  split; [|split].
  - apply Hp256. split; [reflexivity|]. exists x02. split; reflexivity.
  - apply Hp384. split; [reflexivity|]. exists x03. split; reflexivity.
  - apply Hnone; [reflexivity|]. left. reflexivity.
Defined.

Lemma makePeerCert_trailing_bytes_witness :
  (makePeerCert (ssl := Mini.ssl) (Some (IOBuf_of_bytes [x30; x02; x03]))).2
  = (makePeerCert (ssl := Mini.ssl) (Some (IOBuf_of_bytes [x30; x02]))).2 ∧
  (makePeerCert (ssl := Mini.ssl) (Some (IOBuf_of_bytes [x30; x02; x03]))).1
  = ["Did not read to end of certificate"%string].
Proof.
  assert (Hbounds : (0 < 2 < length (IOBuf_coalesce (IOBuf_of_bytes [x30; x02; x03])))%nat)
    by (simpl; lia).
  pose proof (makePeerCert_trailing_bytes (ssl := Mini.ssl)
                (IOBuf_of_bytes [x30; x02; x03]) x02 2%nat eq_refl Hbounds eq_refl)
    as (Hsame & Hlog & _).
  split; [exact Hsame | exact Hlog].
Defined.

Lemma makeSelfCert_data_delegates_witness :
  makeSelfCert_data (ssl := Mini.ssl) [x04; x02] [x07]
  = makeSelfCert (ssl := Mini.ssl) [x04; x02] x07 ∧
  makeSelfCert_data (ssl := Mini.ssl) [] [x07]
  = Throw (runtime_error "no certificates read").
Proof.
  pose proof (makeSelfCert_data_delegates (ssl := Mini.ssl) [x04; x02] [x07])
    as [_ Hsome].
  pose proof (makeSelfCert_data_delegates (ssl := Mini.ssl) [] [x07]) as [Hnone _].
  split.
  - refine (proj2 (proj2 (Hsome [x04; x02] eq_refl _)) [x07] x07 eq_refl eq_refl).
    discriminate.
  - exact (Hnone eq_refl).
Defined.

(** * Further properties *)

(** ** The signing context determines its inputs *)

Lemma label_bytes_inj (c c' : CertificateVerifyContext) :
  label_bytes c = label_bytes c' → c = c'.
Proof.
  intros Heq. apply (f_equal (λ l : list byte, l !! 9%nat)) in Heq.
  by destruct c, c'.
Qed.

(** X1. The signing context determines both the side and the signed bytes:
    two calls of [prepareSignData] that return equal buffers were made for
    the same context and the same byte range. In particular a buffer built
    for one side is never a buffer built for the other, whatever ranges the
    two sides sign. *)
Theorem prepareSignData_injective (fresh fresh' : nat → byte)
    (c c' : CertificateVerifyContext) (a b : ByteRange) :
  ByteRange_valid a → ByteRange_valid b →
  prepareSignData fresh c a = prepareSignData fresh' c' b →
  c = c' ∧ a = b.
Proof.
  intros Ha Hb.
  rewrite (prepareSignData_bytes fresh c a Ha), (prepareSignData_bytes fresh' c' b Hb).
  intros Heq.
  assert (Hbuf : ∀ x y : IOBuf, Ret (Some x) = Ret (Some y) → x = y) by congruence.
  apply Hbuf, (f_equal IOBuf_coalesce) in Heq.
  rewrite !IOBuf_coalesce_of_bytes in Heq.
  apply app_inv_head in Heq.
  apply app_inj_1 in Heq as [Hlabel Hrest];
    [|by rewrite !length_label_bytes].
  split; [by apply label_bytes_inj|].
  by injection Hrest.
Qed.

Lemma prepareSignData_injective_witness :
  ByteRange_valid [x01] ∧ Server = Server ∧ [x01] = [x01].
Proof.
  assert (Hvalid : ByteRange_valid [x01])
    by (unfold ByteRange_valid, ByteRange_size, PTRDIFF_MAX; simpl; lia).
  split; [exact Hvalid|].
  exact (prepareSignData_injective Mini.fresh (λ _, x00) Server Server [x01] [x01]
           Hvalid Hvalid eq_refl).
Defined.

(** ** The loop of the Certificate message *)

Section CertMessageMore.

Context `{ssl : OpenSSL}.
Variable fresh : nat → byte.

(** The entries built by the loop are appended to those it starts from. *)
Lemma getCertMessage_loop_acc (certs : list X509) (entries : list CertificateEntry) :
  getCertMessage_loop fresh certs entries
  = (es ← getCertMessage_loop fresh certs []; mret (entries ++ es)).
Proof.
  revert entries. induction certs as [|cert certs IH]; intros entries.
  - simpl. unfold mret, outcome_ret. by rewrite app_nil_r.
  - cbn [getCertMessage_loop].
    destruct (decide (i2d_X509_len cert < 0)); [done|].
    destruct (i2d_X509_out cert) as [len stored].
    destruct (memcpy _ _ _ _) as [buf| |]; cbn [mbind outcome_bind]; [|done..].
    destruct (decide (len < 0)); [done|].
    destruct (IOBuf_append _ _) as [buf'| |]; cbn [mbind outcome_bind]; [|done..].
    rewrite (IH (entries ++ _)), (IH ([] ++ _)).
    destruct (getCertMessage_loop fresh certs []) as [es| |];
      cbn [mbind outcome_bind mret outcome_ret]; [|done..].
    by rewrite <- app_assoc.
Qed.

(** The loop on a concatenation is the loop on its parts, in order. *)
Lemma getCertMessage_loop_app (a b : list X509) (entries : list CertificateEntry) :
  getCertMessage_loop fresh (a ++ b) entries
  = (es ← getCertMessage_loop fresh a entries; getCertMessage_loop fresh b es).
Proof.
  revert entries. induction a as [|cert a IH]; intros entries; [done|].
  cbn [app getCertMessage_loop].
  destruct (decide (i2d_X509_len cert < 0)); [done|].
  destruct (i2d_X509_out cert) as [len stored].
  destruct (memcpy _ _ _ _) as [buf| |]; cbn [mbind outcome_bind]; [|done..].
  destruct (decide (len < 0)); [done|].
  destruct (IOBuf_append _ _) as [buf'| |]; cbn [mbind outcome_bind]; [|done..].
  apply IH.
Qed.

(** X2. Certificate messages compose: when [getCertMessage] returns on two
    sequences, it returns on their concatenation, with the two certificate
    lists one after the other; and an error thrown on the first sequence is
    thrown on the concatenation, whatever follows. *)
Theorem getCertMessage_app (a b : list X509) (ctx ctx_a ctx_b : Buf) :
  (∀ ma mb,
     getCertMessage fresh a ctx_a = Ret ma →
     getCertMessage fresh b ctx_b = Ret mb →
     getCertMessage fresh (a ++ b) ctx
     = Ret (mkCertificateMsg ctx (certificate_list ma ++ certificate_list mb))) ∧
  (∀ e, getCertMessage fresh a ctx_a = Throw e →
        getCertMessage fresh (a ++ b) ctx = Throw e).
Proof.
  unfold getCertMessage. rewrite getCertMessage_loop_app.
  destruct (getCertMessage_loop fresh a []) as [ea| |];
    cbn [mbind outcome_bind mret outcome_ret]; [|by split..].
  split; [|done]. intros ma mb [= <-].
  rewrite (getCertMessage_loop_acc b ea).
  destruct (getCertMessage_loop fresh b []) as [eb| |];
    cbn [mbind outcome_bind mret outcome_ret]; [|done..].
  by intros [= <-].
Qed.

(** X3. The first certificate whose encoding fails decides the error: after
    certificates that encode without failure (the encoder staying within the
    length it announced), a negative length at the first call throws "Error
    computing length" and a negative length at the second call throws "Error
    converting cert to DER"; the certificates after it play no role. *)
Theorem getCertMessage_first_failure
    (pre : list X509) (cert : X509) (post : list X509) (ctx : Buf) :
  Forall i2d_in_bounds pre → Forall (λ c, ¬ encode_fails c) pre →
  (i2d_X509_len cert < 0 →
   getCertMessage fresh (pre ++ cert :: post) ctx
   = Throw (runtime_error "Error computing length")) ∧
  (0 ≤ i2d_X509_len cert → i2d_in_bounds cert → (i2d_X509_out cert).1 < 0 →
   getCertMessage fresh (pre ++ cert :: post) ctx
   = Throw (runtime_error "Error converting cert to DER")).
Proof.
  intros Hsafe Hok. unfold getCertMessage. rewrite getCertMessage_loop_app.
  destruct (getCertMessage_loop_outcome fresh pre [] Hsafe) as [_ Hret].
  destruct Hret as [es ->]; [by apply Forall_not_Exists|].
  cbn [mbind outcome_bind getCertMessage_loop]. split.
  - intros Hneg. by rewrite decide_True.
  - unfold i2d_in_bounds, der, ByteRange_size. intros Hpos Hcert Hneg.
    rewrite decide_False by lia.
    destruct (i2d_X509_out cert) as [len stored]; simpl in Hcert, Hneg.
    destruct Hcert as [Hstored _]; [done|].
    unfold IOBuf_create.
    change (Z.of_nat (length stored)) with (ByteRange_size stored).
    rewrite (memcpy_head _ _ _ 0) by (rewrite length_uninitialized; lia).
    cbn [mbind outcome_bind]. by rewrite decide_True.
Qed.

(** One turn of the loop when the second call reports what it stores. *)
Lemma getCertMessage_loop_reports cert certs (entries : list CertificateEntry) :
  stores_what_it_reports cert →
  ∃ entry, entry_holds cert entry ∧
    getCertMessage_loop fresh (cert :: certs) entries
    = getCertMessage_loop fresh certs (entries ++ [entry]).
Proof.
  unfold stores_what_it_reports, entry_holds, der, ByteRange_size.
  intros [Hret Hlen]. cbn [getCertMessage_loop].
  destruct (i2d_X509_out cert) as [len stored]; simpl in Hret, Hlen. subst len.
  rewrite decide_False by lia.
  unfold IOBuf_create.
  change (Z.of_nat (length stored)) with (ByteRange_size stored) at 1.
  rewrite (memcpy_head _ _ _ 0) by (rewrite length_uninitialized; lia).
  cbn [mbind outcome_bind].
  rewrite decide_False by lia.
  unfold IOBuf_append. cbn [buf_head buf_next seg_mem seg_len].
  rewrite length_inserts, length_uninitialized, decide_True by lia.
  cbn [mbind outcome_bind].
  eexists. split; [|reflexivity].
  eexists. split; [reflexivity|]. split; [|done].
  unfold IOBuf_coalesce, IOBuf_segments, seg_bytes. simpl.
  rewrite app_nil_r, Nat2Z.id.
  destruct (list_cut (uninitialized fresh (Z.to_nat (i2d_X509_len cert)))
              (length stored) (Z.to_nat (i2d_X509_len cert) - length stored))
    as (m1 & m2 & -> & Hm1 & Hm2); [rewrite length_uninitialized; lia|].
  rewrite list_inserts_0_r by done.
  by rewrite take_app_length.
Qed.

(** X4. An entry is as long as the second call of the encoder says, not as
    the first call announced: when the second call reports the number of
    bytes it stores, each entry holds exactly those bytes, also when the
    first call announced more, and nothing of the fresh allocation shows. *)
Theorem getCertMessage_contents (certs : list X509) (ctx : Buf) :
  Forall stores_what_it_reports certs →
  ∃ msg : CertificateMsg,
    getCertMessage fresh certs ctx = Ret msg ∧
    certificate_request_context msg = ctx ∧
    Forall2 entry_holds certs (certificate_list msg).
Proof.
  intros Hall. unfold getCertMessage.
  assert (Hloop : ∀ entries, ∃ es,
            getCertMessage_loop fresh certs entries = Ret (entries ++ es) ∧
            Forall2 entry_holds certs es).
  { induction Hall as [|cert certs Hcert _ IH]; intros entries.
    - exists []. split; [by rewrite app_nil_r | constructor].
    - destruct (getCertMessage_loop_reports cert certs entries Hcert)
        as (entry & Hentry & ->).
      destruct (IH (entries ++ [entry])) as (es & -> & Hes).
      exists (entry :: es). split; [by rewrite <- app_assoc | by constructor]. }
  destruct (Hloop []) as (es & -> & Hes).
  eexists. split; [reflexivity|]. by split.
Qed.

End CertMessageMore.

Lemma getCertMessage_app_witness :
  getCertMessage (ssl := Mini.ssl) Mini.fresh ([x01] ++ [x02]) None
  = Ret (mkCertificateMsg None [entry_of (ssl := Mini.ssl) x01; entry_of (ssl := Mini.ssl) x02]) ∧
  getCertMessage (ssl := Mini.ssl) Mini.fresh ([xff] ++ [x02]) None
  = Throw (runtime_error "Error computing length").
Proof.
  split.
  - exact (proj1 (getCertMessage_app (ssl := Mini.ssl) Mini.fresh [x01] [x02] None None None)
             _ _ eq_refl eq_refl).
  - exact (proj2 (getCertMessage_app (ssl := Mini.ssl) Mini.fresh [xff] [x02] None None None)
             _ eq_refl).
Defined.

Lemma getCertMessage_first_failure_witness :
  getCertMessage (ssl := Mini.ssl) Mini.fresh ([x01] ++ xfe :: [xff]) None
  = Throw (runtime_error "Error converting cert to DER").
Proof.
  assert (Hsafe : Forall (i2d_in_bounds (ssl := Mini.ssl)) [x01]).
  { repeat constructor; unfold ByteRange_size; simpl; lia. }
  assert (Hok : Forall (λ c, ¬ encode_fails (ssl := Mini.ssl) c) [x01]).
  { repeat constructor. unfold encode_fails. simpl. lia. }
  refine (proj2 (getCertMessage_first_failure (ssl := Mini.ssl) Mini.fresh
                   [x01] xfe [xff] None Hsafe Hok) _ _ _).
  - simpl. lia.
  - unfold i2d_in_bounds, ByteRange_size. simpl. lia.
  - simpl. lia.
Defined.

Lemma getCertMessage_contents_witness :
  Forall (stores_what_it_reports (ssl := Roomy.ssl)) [x01; x02] ∧
  ∃ msg : CertificateMsg,
    getCertMessage (ssl := Roomy.ssl) Mini.fresh [x01; x02] None = Ret msg ∧
    Forall2 (entry_holds (ssl := Roomy.ssl)) [x01; x02] (certificate_list msg).
Proof.
  assert (Hall : Forall (stores_what_it_reports (ssl := Roomy.ssl)) [x01; x02]).
  { repeat constructor; unfold ByteRange_size; simpl; lia. }
  split; [exact Hall|].
  destruct (getCertMessage_contents (ssl := Roomy.ssl) Mini.fresh [x01; x02] None Hall)
    as (msg & Hret & _ & Hentries).
  exists msg. split; [exact Hret | exact Hentries].
Defined.

(** ** What a peer certificate is made from *)

Section PeerCertMore.

Context `{ssl : OpenSSL}.

(** A well-formed chain is empty exactly when it holds no byte. *)
Lemma IOBuf_empty_iff (b : IOBuf) :
  IOBuf_wf b → IOBuf_empty b = true ↔ IOBuf_coalesce b = [].
Proof.
  unfold IOBuf_wf, IOBuf_empty, IOBuf_coalesce.
  generalize (IOBuf_segments b) as segs.
  induction segs as [|s segs IH]; [done|].
  intros [Hs Hsegs]%Forall_cons. simpl.
  rewrite andb_true_iff, Nat.eqb_eq, (IH Hsegs). unfold segment_wf in Hs.
  split.
  - intros [Hlen ->]. unfold seg_bytes. by rewrite Hlen.
  - intros [Hhd ->]%app_eq_nil. split; [|done].
    apply (f_equal length) in Hhd. unfold seg_bytes in Hhd.
    rewrite length_take in Hhd. simpl in Hhd. lia.
Qed.

(** A key that stands for a tag yields the variant of that tag. *)
Lemma makePeerCert_tag (certData : IOBuf) (cert : X509) (n : nat)
    (key : EVP_PKEY) (T : KeyType) :
  IOBuf_empty certData = false →
  d2i_X509 (IOBuf_coalesce certData) = Some (cert, n) →
  X509_get_pubkey cert = Some key →
  (makePeerCert (Some certData)).2 = Ret (PeerCertImpl T cert) ↔ key_tag key T.
Proof.
  intros Hne Hparse Hkey.
  rewrite (makePeerCert_parsed certData cert n key Hne Hparse Hkey).
  unfold key_tag, EVP_PKEY_RSA, EVP_PKEY_EC,
    NID_X9_62_prime256v1, NID_secp384r1, NID_secp521r1.
  destruct T; repeat case_decide; (split; [intros Hret | intros Htag]);
    try done; try lia; try (destruct Htag; lia); try (split; lia).
Qed.

(** X5. A peer certificate is returned only from a non-null, non-empty
    buffer that parsed and whose certificate gave a public key standing for
    the tag of the result; the result holds the parsed certificate. *)
Theorem makePeerCert_returns_inv (certData : Buf) (p : PeerCert) :
  (makePeerCert certData).2 = Ret p →
  ∃ (buf : IOBuf) (cert : X509) (n : nat) (key : EVP_PKEY) (T : KeyType),
    certData = Some buf ∧
    IOBuf_empty buf = false ∧
    d2i_X509 (IOBuf_coalesce buf) = Some (cert, n) ∧
    X509_get_pubkey cert = Some key ∧
    key_tag key T ∧
    p = PeerCertImpl T cert.
Proof.
  destruct certData as [buf|]; [|done].
  destruct (IOBuf_empty buf) eqn:Hne;
    [by unfold makePeerCert; rewrite Hne|].
  destruct (d2i_X509 (IOBuf_coalesce buf)) as [[cert n]|] eqn:Hparse;
    [|by unfold makePeerCert; rewrite Hne, Hparse].
  destruct (X509_get_pubkey cert) as [key|] eqn:Hkey;
    [|by unfold makePeerCert; rewrite Hne, Hparse, Hkey].
  intros Hret.
  assert (HT : ∃ T, p = PeerCertImpl T cert).
  { rewrite (makePeerCert_parsed buf cert n key Hne Hparse Hkey) in Hret.
    repeat case_decide; simplify_eq; eauto. }
  destruct HT as [T ->].
  exists buf, cert, n, key, T. repeat split; try done.
  by apply (makePeerCert_tag buf cert n key T Hne Hparse Hkey).
Qed.

(** The lines written once the buffer parsed. *)
Lemma makePeerCert_vlog_parsed (buf : IOBuf) (cert : X509) (n : nat) :
  IOBuf_empty buf = false →
  d2i_X509 (IOBuf_coalesce buf) = Some (cert, n) →
  (makePeerCert (Some buf)).1 =
    if decide (n ≠ length (IOBuf_coalesce buf))
    then ["Did not read to end of certificate"%string] else [].
Proof.
  intros Hne Hparse. unfold makePeerCert. rewrite Hne, Hparse.
  destruct (X509_get_pubkey cert); by repeat case_decide.
Qed.

(** X6. The diagnostic is written exactly when the buffer parsed and the
    parse stopped before its end, whether or not the key is then accepted;
    in every other case nothing is written. *)
Theorem makePeerCert_vlog (certData : Buf) :
  ((makePeerCert certData).1 = ["Did not read to end of certificate"%string] ↔
   ∃ (buf : IOBuf) (cert : X509) (n : nat),
     certData = Some buf ∧ IOBuf_empty buf = false ∧
     d2i_X509 (IOBuf_coalesce buf) = Some (cert, n) ∧
     n ≠ length (IOBuf_coalesce buf)) ∧
  ((makePeerCert certData).1 = [] ∨
   (makePeerCert certData).1 = ["Did not read to end of certificate"%string]).
Proof.
  destruct certData as [buf|]; [|split; [|by left]].
  2: { split; [done|]. intros (? & ? & ? & ? & _). done. }
  destruct (IOBuf_empty buf) eqn:Hne.
  { assert (Hlog : (makePeerCert (Some buf)).1 = [])
      by (unfold makePeerCert; by rewrite Hne).
    rewrite Hlog. split; [|by left]. split; [done|].
    intros (buf' & ? & ? & Hbuf & Hne' & _). injection Hbuf as <-. congruence. }
  destruct (d2i_X509 (IOBuf_coalesce buf)) as [[cert n]|] eqn:Hparse.
  2: { assert (Hlog : (makePeerCert (Some buf)).1 = [])
         by (unfold makePeerCert; by rewrite Hne, Hparse).
       rewrite Hlog. split; [|by left]. split; [done|].
       intros (buf' & ? & ? & Hbuf & _ & Hparse' & _). injection Hbuf as <-. congruence. }
  rewrite (makePeerCert_vlog_parsed buf cert n Hne Hparse).
  destruct (decide (n ≠ length (IOBuf_coalesce buf))) as [Hn|Hn].
  - split; [|by right]. split; [|done]. intros _. by exists buf, cert, n.
  - split; [|by left]. split; [done|].
    intros (buf' & cert' & n' & Hbuf & _ & Hparse' & Hn'). injection Hbuf as <-.
    rewrite Hparse in Hparse'. injection Hparse' as <- <-. done.
Qed.

(** X7. Only the bytes of the buffer count, not how the chain is cut into
    segments: on two well-formed chains with the same contents
    [makePeerCert] writes the same lines and has the same result. *)
Theorem makePeerCert_chain_shape (b1 b2 : IOBuf) :
  IOBuf_wf b1 → IOBuf_wf b2 →
  IOBuf_coalesce b1 = IOBuf_coalesce b2 →
  makePeerCert (Some b1) = makePeerCert (Some b2).
Proof.
  intros Hwf1 Hwf2 Heq.
  assert (Hempty : IOBuf_empty b1 = IOBuf_empty b2).
  { pose proof (IOBuf_empty_iff b1 Hwf1) as H1.
    pose proof (IOBuf_empty_iff b2 Hwf2) as H2.
    rewrite Heq in H1.
    destruct (IOBuf_empty b1), (IOBuf_empty b2); try done.
    - symmetry. apply H2, H1. done.
    - apply H1, H2. done. }
  unfold makePeerCert. by rewrite Hempty, Heq.
Qed.

(** X8. A key whose algorithm is EC but from which no EC key can be taken
    has curve name 0 and is refused: [makePeerCert] throws "unknown peer cert
    type" and [makeSelfCert] throws "unknown self cert type". *)
Theorem ec_key_without_handle_refused
    (certData : IOBuf) (cert : X509) (n : nat) (rest : list X509) (key priv : EVP_PKEY) :
  IOBuf_empty certData = false →
  d2i_X509 (IOBuf_coalesce certData) = Some (cert, n) →
  X509_get_pubkey cert = Some key →
  EVP_PKEY_id key = EVP_PKEY_EC →
  EVP_PKEY_get0_EC_KEY key = None →
  (makePeerCert (Some certData)).2 = Throw (runtime_error "unknown peer cert type") ∧
  makeSelfCert (cert :: rest) priv = Throw (runtime_error "unknown self cert type").
Proof.
  intros Hne Hparse Hkey Hid Hec.
  rewrite (makePeerCert_parsed certData cert n key Hne Hparse Hkey).
  rewrite (makeSelfCert_leaf cert rest priv key Hkey).
  unfold getCurveName. rewrite Hec, Hid.
  unfold EVP_PKEY_RSA, EVP_PKEY_EC, NID_X9_62_prime256v1, NID_secp384r1, NID_secp521r1.
  by repeat case_decide.
Qed.

End PeerCertMore.

(** ** Sending a chain and reading it back *)

Section RoundTrip.

Context `{ssl : OpenSSL}.
Variable fresh : nat → byte.

(** [makePeerCert] on the entry built for a certificate that decodes back. *)
Lemma makePeerCert_entry_of (cert : X509) :
  decodes_back cert →
  (makePeerCert (cert_data (entry_of cert))).1 = [] ∧
  (X509_get_pubkey cert = None →
   (makePeerCert (cert_data (entry_of cert))).2
   = Throw (runtime_error "couldn't get pubkey from peer cert")) ∧
  (∀ key T, X509_get_pubkey cert = Some key →
     (makePeerCert (cert_data (entry_of cert))).2 = Ret (PeerCertImpl T cert)
     ↔ key_tag key T).
Proof.
  intros [Hder Hparse]. cbn [entry_of cert_data].
  pose proof (IOBuf_empty_of_bytes (der cert) Hder) as Hne.
  rewrite <- (IOBuf_coalesce_of_bytes (der cert)) in Hparse at 1.
  split; [|split].
  - rewrite (makePeerCert_vlog_parsed _ cert _ Hne Hparse).
    by rewrite decide_False by (rewrite IOBuf_coalesce_of_bytes; tauto).
  - intros Hkey. unfold makePeerCert. by rewrite Hne, Hparse, Hkey.
  - intros key T Hkey. by apply (makePeerCert_tag _ cert _ key T Hne Hparse Hkey).
Qed.

(** X9. Round trip: when the certificates encode, each entry of the message
    built by [getCertMessage], given to [makePeerCert], is read back without
    diagnostic as the certificate it was built from (provided the decoder
    inverts the encoder on it), with the tag its public key stands for. *)
Theorem getCertMessage_makePeerCert_roundtrip (certs : list X509) (ctx : Buf) :
  Forall encodes certs →
  ∃ msg : CertificateMsg,
    getCertMessage fresh certs ctx = Ret msg ∧
    ∀ (i : nat) (cert : X509),
      certs !! i = Some cert → decodes_back cert →
      ∃ entry : CertificateEntry,
        certificate_list msg !! i = Some entry ∧
        (makePeerCert (cert_data entry)).1 = [] ∧
        (∀ key T, X509_get_pubkey cert = Some key →
           (makePeerCert (cert_data entry)).2 = Ret (PeerCertImpl T cert)
           ↔ key_tag key T).
Proof.
  intros Hall. eexists. split; [by apply getCertMessage_encodes|].
  intros i cert Hi Hback. exists (entry_of cert).
  cbn [certificate_list]. rewrite list_lookup_fmap, Hi.
  destruct (makePeerCert_entry_of cert Hback) as (Hlog & _ & Htag).
  split; [done|]. split; [exact Hlog | exact Htag].
Qed.

(** What [makeSelfCert] returns on a non-empty sequence. *)
Lemma makeSelfCert_returns_inv (leaf : X509) (rest : list X509)
    (key : EVP_PKEY) (s : SelfCert) :
  makeSelfCert (leaf :: rest) key = Ret s ↔
  ∃ (pubKey : EVP_PKEY) (T : KeyType),
    X509_get_pubkey leaf = Some pubKey ∧ key_tag pubKey T ∧
    s = SelfCertImpl T key (leaf :: rest).
Proof.
  destruct (X509_get_pubkey leaf) as [pubKey|] eqn:Hkey.
  - rewrite (makeSelfCert_leaf leaf rest key pubKey Hkey).
    unfold key_tag, EVP_PKEY_RSA, EVP_PKEY_EC,
      NID_X9_62_prime256v1, NID_secp384r1, NID_secp521r1.
    split.
    + intros Hret.
      repeat case_decide; simplify_eq;
        [exists pubKey, RSA | exists pubKey, P256 | exists pubKey, P384 | exists pubKey, P521];
        done.
    + intros (pubKey' & T & [= <-] & Htag & ->).
      destruct T; repeat case_decide; try done; try lia; destruct Htag; lia.
  - unfold makeSelfCert. cbn [front mbind outcome_bind]. rewrite Hkey.
    split; [done|]. by intros (? & ? & ? & _).
Qed.

(** X10. A self certificate and the peer certificate read from its own
    leaf carry the same tag: if [makeSelfCert] returns on a chain whose
    certificates encode and whose leaf decodes back, then [makePeerCert] on
    the first entry of the chain's message returns a peer certificate that
    holds the leaf and has the tag of the self certificate. *)
Theorem self_cert_read_back_as_peer
    (leaf : X509) (rest : list X509) (key : EVP_PKEY) (s : SelfCert) (ctx : Buf) :
  makeSelfCert (leaf :: rest) key = Ret s →
  Forall encodes (leaf :: rest) →
  decodes_back leaf →
  ∃ (msg : CertificateMsg) (entry : CertificateEntry),
    getCertMessage fresh (leaf :: rest) ctx = Ret msg ∧
    certificate_list msg !! 0%nat = Some entry ∧
    (makePeerCert (cert_data entry)).2 = Ret (PeerCertImpl (SelfCert_type s) leaf).
Proof.
  intros Hself Hall Hback.
  apply makeSelfCert_returns_inv in Hself as (pubKey & T & Hkey & Htag & ->).
  eexists _, (entry_of leaf). split; [by apply getCertMessage_encodes|].
  split; [done|].
  destruct (makePeerCert_entry_of leaf Hback) as (_ & _ & Hpeer).
  by apply (Hpeer pubKey T Hkey).
Qed.

End RoundTrip.

(** ** Self certificates from a sequence and from bytes *)

Section SelfCertMore.

Context `{ssl : OpenSSL}.

(** No undefined behaviour on a non-empty sequence. *)
Lemma makeSelfCert_cons_defined (leaf : X509) (rest : list X509) (key : EVP_PKEY) :
  makeSelfCert (leaf :: rest) key ≠ Undefined.
Proof.
  unfold makeSelfCert. cbn [front mbind outcome_bind].
  destruct (X509_get_pubkey leaf); [|done]. by repeat case_decide.
Qed.

(** X11. On a non-empty sequence [makeSelfCert] is never undefined. It
    returns exactly when the leaf has a public key standing for a tag, and
    the result then holds the private key given and the whole sequence; it
    throws "Failed to read public key" exactly when the leaf has no public
    key, and "unknown self cert type" exactly for a key that is neither RSA
    nor on a recognized curve. *)
Theorem makeSelfCert_nonempty (leaf : X509) (rest : list X509) (key : EVP_PKEY) :
  makeSelfCert (leaf :: rest) key ≠ Undefined ∧
  (∀ s, makeSelfCert (leaf :: rest) key = Ret s ↔
        ∃ (pubKey : EVP_PKEY) (T : KeyType),
          X509_get_pubkey leaf = Some pubKey ∧ key_tag pubKey T ∧
          s = SelfCertImpl T key (leaf :: rest)) ∧
  (makeSelfCert (leaf :: rest) key = Throw (runtime_error "Failed to read public key")
   ↔ X509_get_pubkey leaf = None) ∧
  (makeSelfCert (leaf :: rest) key = Throw (runtime_error "unknown self cert type")
   ↔ ∃ pubKey, X509_get_pubkey leaf = Some pubKey ∧
       EVP_PKEY_id pubKey ≠ EVP_PKEY_RSA ∧ ¬ recognized_curve pubKey).
Proof.
  split; [|split; [|split]].
  - apply makeSelfCert_cons_defined.
  - intros s. apply makeSelfCert_returns_inv.
  - apply makeSelfCert_missing_key.
  - destruct (X509_get_pubkey leaf) as [pubKey|] eqn:Hkey.
    + rewrite (makeSelfCert_leaf leaf rest key pubKey Hkey).
      unfold recognized_curve. split.
      * intros Hthrow. exists pubKey. split; [done|].
        repeat case_decide; try done; split; try done; tauto.
      * intros (pubKey' & [= <-] & Hrsa & Hcurve).
        repeat case_decide; try done; exfalso; apply Hcurve; tauto.
    + unfold makeSelfCert. cbn [front mbind outcome_bind]. rewrite Hkey.
      split; [done|]. by intros (? & ? & _).
Qed.

(** X12. Only the leaf decides: the private key and the certificates after
    the leaf change neither the tag of the self certificate nor the error
    thrown. In particular the private key is not compared with the leaf. *)
Theorem makeSelfCert_leaf_decides
    (leaf : X509) (rest rest' : list X509) (key key' : EVP_PKEY) :
  match makeSelfCert (leaf :: rest) key, makeSelfCert (leaf :: rest') key' with
  | Ret s, Ret s' => SelfCert_type s = SelfCert_type s'
  | Throw e, Throw e' => e = e'
  | _, _ => False
  end.
Proof.
  unfold makeSelfCert. cbn [front mbind outcome_bind].
  destruct (X509_get_pubkey leaf); [|done]. by repeat case_decide.
Qed.

(** X13. The overload on bytes never reaches the undefined access of the
    overload on a sequence: unless reading the certificates is itself
    undefined, [makeSelfCert] on bytes returns or throws. *)
Theorem makeSelfCert_data_defined (certData keyData : list byte) :
  readCertsFromBuffer certData ≠ Undefined →
  makeSelfCert_data certData keyData ≠ Undefined.
Proof.
  intros Hread. unfold makeSelfCert_data.
  destruct (readCertsFromBuffer certData) as [certs| |]; cbn [mbind outcome_bind]; [|done..].
  case_decide; [done|].
  destruct (BIO_new_mem_buf _ _) as [b|]; [|done].
  destruct (PEM_read_bio_PrivateKey b) as [key|]; [|done].
  destruct certs as [|leaf rest]; [done|].
  apply makeSelfCert_cons_defined.
Qed.

(** X14. The certificates are read first: an error thrown while reading
    them is thrown by [makeSelfCert] on bytes as it is, and unless a
    non-empty sequence was read the key bytes are not looked at. *)
Theorem makeSelfCert_data_certs_first (certData keyData keyData' : list byte) :
  (∀ e, readCertsFromBuffer certData = Throw e →
        makeSelfCert_data certData keyData = Throw e) ∧
  ((∀ certs, readCertsFromBuffer certData = Ret certs → certs = []) →
   makeSelfCert_data certData keyData = makeSelfCert_data certData keyData').
Proof.
  unfold makeSelfCert_data. split.
  - by intros e ->.
  - intros Hnone.
    destruct (readCertsFromBuffer certData) as [certs| |]; cbn [mbind outcome_bind]; [|done..].
    by rewrite !decide_True by (by apply Hnone).
Qed.

(** X15. What the overload on bytes returns: a self certificate is returned
    only when a non-empty sequence was read, a BIO was made over the key
    bytes and a key read from it, and the leaf's public key stands for the
    tag; the result holds the key read and the whole sequence read. *)
Theorem makeSelfCert_data_returns_inv (certData keyData : list byte) (s : SelfCert) :
  makeSelfCert_data certData keyData = Ret s →
  ∃ (leaf : X509) (rest : list X509) (b : BIO) (key pubKey : EVP_PKEY) (T : KeyType),
    readCertsFromBuffer certData = Ret (leaf :: rest) ∧
    BIO_new_mem_buf keyData (int_of_size (ByteRange_size keyData)) = Some b ∧
    PEM_read_bio_PrivateKey b = Some key ∧
    X509_get_pubkey leaf = Some pubKey ∧
    key_tag pubKey T ∧
    s = SelfCertImpl T key (leaf :: rest).
Proof.
  unfold makeSelfCert_data.
  destruct (readCertsFromBuffer certData) as [certs| |]; cbn [mbind outcome_bind]; [|done..].
  case_decide; [done|].
  destruct (BIO_new_mem_buf _ _) as [b|] eqn:Hbio; [|done].
  destruct (PEM_read_bio_PrivateKey b) as [key|] eqn:Hpem; [|done].
  destruct certs as [|leaf rest]; [done|].
  intros (pubKey & T & Hkey & Htag & ->)%makeSelfCert_returns_inv.
  by exists leaf, rest, b, key, pubKey, T.
Qed.

End SelfCertMore.

(** ** The further properties on the small collaborator *)

Lemma makePeerCert_returns_inv_witness :
  ∃ (buf : IOBuf) (cert : X509 (OpenSSL := Mini.ssl)) (n : nat),
    Some (IOBuf_of_bytes [x30; x01]) = Some buf ∧
    d2i_X509 (IOBuf_coalesce buf) = Some (cert, n).
Proof.
  destruct (makePeerCert_returns_inv (ssl := Mini.ssl)
              (Some (IOBuf_of_bytes [x30; x01])) (PeerCertImpl (ssl := Mini.ssl) RSA x01) eq_refl)
    as (buf & cert & n & key & T & Hbuf & _ & Hparse & _).
  exists buf, cert, n. split; [exact Hbuf | exact Hparse].
Defined.

Lemma makePeerCert_chain_shape_witness :
  makePeerCert (ssl := Mini.ssl) (Some (IOBuf_of_bytes [x30; x01]))
  = makePeerCert (ssl := Mini.ssl)
      (Some (mkIOBuf (mkSegment [x30] 1) [mkSegment [] 0; mkSegment [x01; x07] 1])).
Proof.
  apply (makePeerCert_chain_shape (ssl := Mini.ssl)).
  - repeat constructor.
  - repeat constructor.
  - reflexivity.
Defined.

Lemma ec_key_without_handle_refused_witness :
  (makePeerCert (ssl := Mini.ssl) (Some (IOBuf_of_bytes [x30; x06]))).2
  = Throw (runtime_error "unknown peer cert type") ∧
  makeSelfCert (ssl := Mini.ssl) [x06; x01] x07
  = Throw (runtime_error "unknown self cert type").
Proof.
  exact (ec_key_without_handle_refused (ssl := Mini.ssl)
           (IOBuf_of_bytes [x30; x06]) x06 2%nat [x01] x06 x07
           eq_refl eq_refl eq_refl eq_refl eq_refl).
Defined.

Lemma getCertMessage_makePeerCert_roundtrip_witness :
  ∃ msg : CertificateMsg,
    getCertMessage (ssl := Mini.ssl) Mini.fresh [x01; x03] None = Ret msg ∧
    ∃ entry : CertificateEntry,
      certificate_list msg !! 1%nat = Some entry ∧
      (makePeerCert (ssl := Mini.ssl) (cert_data entry)).2
      = Ret (PeerCertImpl (ssl := Mini.ssl) P384 x03).
Proof.
  assert (Hall : Forall (encodes (ssl := Mini.ssl)) [x01; x03])
    by (repeat apply Forall_cons_2; try apply Forall_nil_2; split; reflexivity).
  assert (Hback : decodes_back (ssl := Mini.ssl) x03)
    by (split; [discriminate | reflexivity]).
  destruct (getCertMessage_makePeerCert_roundtrip (ssl := Mini.ssl)
              Mini.fresh [x01; x03] None Hall) as (msg & Hret & Hentries).
  exists msg. split; [exact Hret|].
  destruct (Hentries 1%nat x03 eq_refl Hback) as (entry & Hentry & _ & Htag).
  exists entry. split; [exact Hentry|].
  apply (Htag x03 P384 eq_refl). split; reflexivity.
Defined.

Lemma self_cert_read_back_as_peer_witness :
  ∃ (msg : CertificateMsg) (entry : CertificateEntry),
    getCertMessage (ssl := Mini.ssl) Mini.fresh [x02; x01] None = Ret msg ∧
    certificate_list msg !! 0%nat = Some entry ∧
    (makePeerCert (ssl := Mini.ssl) (cert_data entry)).2
    = Ret (PeerCertImpl (ssl := Mini.ssl) P256 x02).
Proof.
  assert (Hall : Forall (encodes (ssl := Mini.ssl)) [x02; x01])
    by (repeat apply Forall_cons_2; try apply Forall_nil_2; split; reflexivity).
  assert (Hback : decodes_back (ssl := Mini.ssl) x02)
    by (split; [discriminate | reflexivity]).
  exact (self_cert_read_back_as_peer (ssl := Mini.ssl) Mini.fresh x02 [x01] x07
           (SelfCertImpl (ssl := Mini.ssl) P256 x07 [x02; x01]) None eq_refl Hall Hback).
Defined.

Lemma makeSelfCert_data_defined_witness :
  makeSelfCert_data (ssl := Mini.ssl) [] [x07] ≠ Undefined ∧
  makeSelfCert_data (ssl := Mini.ssl) [x00; x01] [] ≠ Undefined.
Proof.
  split; apply (makeSelfCert_data_defined (ssl := Mini.ssl)); simpl; discriminate.
Defined.

Lemma makeSelfCert_data_certs_first_witness :
  makeSelfCert_data (ssl := Mini.ssl) [] [x01]
  = makeSelfCert_data (ssl := Mini.ssl) [] [].
Proof.
  apply (makeSelfCert_data_certs_first (ssl := Mini.ssl) [] [x01] []).
  intros certs Hread. simpl in Hread. injection Hread as <-. reflexivity.
Defined.

Lemma makeSelfCert_data_returns_inv_witness :
  ∃ (leaf : X509 (OpenSSL := Mini.ssl)) (rest : list X509),
    readCertsFromBuffer [x04; x02] = Ret (leaf :: rest).
Proof.
  destruct (makeSelfCert_data_returns_inv (ssl := Mini.ssl) [x04; x02] [x07]
              (SelfCertImpl (ssl := Mini.ssl) P521 x07 [x04; x02]) eq_refl)
    as (leaf & rest & b & key & pubKey & T & Hread & _).
  exists leaf, rest. exact Hread.
Defined.
